(** * Workflow builder: the workflow model and its executor

    A shallow embedding of [src/main.py]: the [WorkflowElement] class, the
    session state the Streamlit script keeps ([workflow_elements],
    [workflow_data], [execution_results]), and the operations on it
    ([add_element_to_workflow], the delete button, [render_element_config],
    [execute_workflow], [export_workflow], [import_workflow]), followed by
    what the page derives from the session: the display names
    ([get_element_display_name]), the status indicator, the report that ends
    [execute_workflow] and the metrics of [main].

    Python is dynamically typed, and [import_workflow] stores whatever the
    uploaded JSON holds, so every field of an element is a Python value
    ([pyval]).  What the interpreter itself supplies -- the text [str] gives
    for a value that is not a string, the message of a built-in exception,
    the identifiers [uuid.uuid4] draws and the capitals of [str.title] -- is
    gathered in a [runtime] record that the operations take as an argument. *)

From Stdlib Require Import ZArith List String Ascii Bool Lia FinFun.
From Stdlib Require Import Floats.SpecFloat.
Import ListNotations.

Local Open Scope string_scope.
Local Open Scope Z_scope.

(** ** Python values *)

Set Warnings "-register-all".

(** The values JSON can carry, which are also all the values the widgets put
    into a config.  A [str] is a Rocq string, one character per code point
    (code points below 256); a [dict] keeps its items in insertion order and
    its keys are strings, as in every dict the program builds or loads. *)
Inductive pyval : Type :=
| PNone
| PBool (b : bool)
| PInt (z : Z)
| PFloat (f : spec_float)
| PStr (s : string)
| PList (l : list pyval)
| PDict (d : list (string * pyval)).

Definition pydict : Type := list (string * pyval).

(** [bool(v)]: what [if v] and [v or w] test. *)
Definition truthy (v : pyval) : bool :=
  match v with
  | PNone => false
  | PBool b => b
  | PInt z => negb (z =? 0)
  | PFloat (S754_zero _) => false
  | PFloat _ => true
  | PStr s => negb (s =? "")%string
  | PList l => match l with [] => false | _ => true end
  | PDict d => match d with [] => false | _ => true end
  end.

(** [v == 'literal']: only a [str] equals a [str]. *)
Definition str_eq (v : pyval) (s : string) : bool :=
  match v with
  | PStr t => (t =? s)%string
  | _ => false
  end.

(** [v in ['a', 'b', ...]] for a list of string literals. *)
Definition in_strs (v : pyval) (l : list string) : bool :=
  existsb (str_eq v) l.

(** Built-in exceptions the program can meet. *)
Inductive type_error : Type :=
| NotContainer (v : pyval)      (* 'k' in v *)
| NotSubscriptable (v : pyval)  (* v['k'] on None, a bool or a number *)
| BadIndex (v : pyval)          (* v['k'] on a list or a str *)
| NotIterable (v : pyval)       (* for x in v *)
| NoItemAssignment (v : pyval)  (* v['k'] = ... on anything but a dict *)
| Unhashable (v : pyval).       (* d[v] = ... with a list or a dict *)

Inductive exn : Type :=
| KeyError (key : string)
| TypeError (why : type_error)
| AttributeError (obj : pyval) (attr : string)
| IndexError
| OverflowError
| JSONDecodeError.

(** Computations that may raise. *)
Definition raising (A : Type) : Type := (exn + A)%type.

Definition ret {A} (a : A) : raising A := inr a.
Definition raise {A} (e : exn) : raising A := inl e.
Definition bind {A B} (c : raising A) (k : A -> raising B) : raising B :=
  match c with
  | inl e => inl e
  | inr a => k a
  end.

Notation "x <- c ;; k" := (bind c (fun x => k))
  (at level 61, c at next level, right associativity).

(** *** Dicts with string keys *)

Fixpoint lookup (k : string) (d : pydict) : option pyval :=
  match d with
  | [] => None
  | (k', v) :: r => if (k' =? k)%string then Some v else lookup k r
  end.

(** [d[k] = v] *)
Fixpoint assign (d : pydict) (k : string) (v : pyval) : pydict :=
  match d with
  | [] => [(k, v)]
  | (k', v') :: r =>
      if (k' =? k)%string then (k', v) :: r else (k', v') :: assign r k v
  end.

Definition is_substring (needle s : string) : bool :=
  match index 0 needle s with
  | Some _ => true
  | None => false
  end.

(** ['k' in v] *)
Definition py_contains (v : pyval) (k : string) : raising bool :=
  match v with
  | PDict d => ret (match lookup k d with Some _ => true | None => false end)
  | PList l => ret (existsb (fun x => str_eq x k) l)
  | PStr s => ret (is_substring k s)
  | _ => raise (TypeError (NotContainer v))
  end.

(** [v['k']] *)
Definition subscript (v : pyval) (k : string) : raising pyval :=
  match v with
  | PDict d =>
      match lookup k d with
      | Some x => ret x
      | None => raise (KeyError k)
      end
  | PList _ | PStr _ => raise (TypeError (BadIndex v))
  | _ => raise (TypeError (NotSubscriptable v))
  end.

(** [v.get('k', default)] *)
Definition py_get (v : pyval) (k : string) (default : pyval) : raising pyval :=
  match v with
  | PDict d =>
      match lookup k d with
      | Some x => ret x
      | None => ret default
      end
  | _ => raise (AttributeError v "get")
  end.

(** [for x in v]: the items the loop visits. *)
Definition py_iter (v : pyval) : raising (list pyval) :=
  match v with
  | PList l => ret l
  | PDict d => ret (map (fun kv => PStr (fst kv)) d)
  | PStr s => ret (map (fun c => PStr (String c EmptyString)) (list_ascii_of_string s))
  | _ => raise (TypeError (NotIterable v))
  end.

(** *** Dicts keyed by arbitrary hashable values

    [results] in [execute_workflow] is keyed by [element.id]. *)

Definition hashable (v : pyval) : bool :=
  match v with
  | PList _ | PDict _ => false
  | _ => true
  end.

Definition as_int (v : pyval) : option Z :=
  match v with
  | PBool b => Some (if b then 1 else 0)
  | PInt z => Some z
  | _ => None
  end.

(** A float against an integer, compared exactly as Python does. *)
Definition float_eq_int (f : spec_float) (z : Z) : bool :=
  match f with
  | S754_zero _ => z =? 0
  | S754_finite s m e =>
      let v := if s then Z.neg m else Z.pos m in
      if 0 <=? e then z =? v * 2 ^ e else z * 2 ^ (- e) =? v
  | _ => false
  end.

(** [a == b] on hashable values: [True == 1 == 1.0], a string equals only
    a string, and NaN equals nothing, itself included. *)
Definition py_eqb (a b : pyval) : bool :=
  match a, b with
  | PNone, PNone => true
  | PStr s, PStr t => (s =? t)%string
  | PFloat f, PFloat g => SFeqb f g
  | PFloat f, _ => match as_int b with Some z => float_eq_int f z | None => false end
  | _, PFloat g => match as_int a with Some z => float_eq_int g z | None => false end
  | _, _ =>
      match as_int a, as_int b with
      | Some x, Some y => x =? y
      | _, _ => false
      end
  end.

(** The test a dict applies to its keys: the same object, or else [==].
    Identity adds one case to [==] here, NaN: [json.load] hands out one and
    the same float object for every [NaN] of a document, and an id comes
    from such a document or is a string, so two NaN ids are one object and
    one key.  Every other value [json.load] builds is found by [==]. *)
Definition key_eqb (a b : pyval) : bool :=
  match a, b with
  | PFloat S754_nan, PFloat S754_nan => true
  | _, _ => py_eqb a b
  end.

Definition results : Type := list (pyval * pyval).

Fixpoint results_get (k : pyval) (d : results) : option pyval :=
  match d with
  | [] => None
  | (k', v) :: r => if key_eqb k' k then Some v else results_get k r
  end.

Fixpoint results_set (d : results) (k v : pyval) : results :=
  match d with
  | [] => [(k, v)]
  | (k', v') :: r =>
      if key_eqb k' k then (k', v) :: r else (k', v') :: results_set r k v
  end.

(** [d[k] = v] *)
Definition store (d : results) (k v : pyval) : raising results :=
  if hashable k then ret (results_set d k v)
  else raise (TypeError (Unhashable k)).

(** *** Lists *)

Fixpoint remove_nth {A} (n : nat) (l : list A) : list A :=
  match l, n with
  | [], _ => []
  | _ :: r, O => r
  | x :: r, S n' => x :: remove_nth n' r
  end.

(** The range of [Py_ssize_t], the machine integer [list.pop] converts its
    argument to. *)
Definition ssize_t_min : Z := - 2 ^ 63.
Definition ssize_t_max : Z := 2 ^ 63 - 1.

Definition fits_ssize_t (index : Z) : bool :=
  (ssize_t_min <=? index) && (index <=? ssize_t_max).

(** [l.pop(index)]: a negative index counts from the end.  An index that
    does not fit [Py_ssize_t] raises [OverflowError] when the argument is
    converted, one that fits and is out of range raises [IndexError].  A
    list has fewer than [2 ^ 63] items, so an index within the list always
    fits, and the test of the range can come first. *)
Definition list_pop {A} (l : list A) (index : Z) : raising (A * list A) :=
  let n := Z.of_nat (List.length l) in
  let i := if index <? 0 then index + n else index in
  if (i <? 0) || (n <=? i) then
    if fits_ssize_t index then raise IndexError else raise OverflowError
  else
    match nth_error l (Z.to_nat i) with
    | Some x => ret (x, remove_nth (Z.to_nat i) l)
    | None => raise IndexError
    end.

(** *** Strings *)

(** [str.isspace] on one character. *)
Definition is_space (c : ascii) : bool :=
  let n := nat_of_ascii c in
  ((9 <=? n) && (n <=? 13) || (28 <=? n) && (n <=? 32)
   || (n =? 133) || (n =? 160))%nat.

Fixpoint lstrip (s : string) : string :=
  match s with
  | EmptyString => EmptyString
  | String c r => if is_space c then lstrip r else s
  end.

Fixpoint rstrip (s : string) : string :=
  match s with
  | EmptyString => EmptyString
  | String c r =>
      match rstrip r with
      | EmptyString => if is_space c then EmptyString else String c EmptyString
      | r' => String c r'
      end
  end.

(** [s.strip()] *)
Definition strip (s : string) : string := rstrip (lstrip s).

Definition newline : ascii := ascii_of_nat 10.

(** [s.split('\n')] *)
Fixpoint split_lines (s : string) : list string :=
  match s with
  | EmptyString => [EmptyString]
  | String c r =>
      if Ascii.eqb c newline then EmptyString :: split_lines r
      else
        match split_lines r with
        | h :: t => String c h :: t
        | [] => [String c EmptyString]
        end
  end.

(** ** What the interpreter supplies *)

Record runtime : Type := {
  (** [str(v)] for a value that is not a [str] (its [repr]) *)
  py_repr : pyval -> string;
  (** [str(e)] for a [TypeError] or an [AttributeError] *)
  exn_text : exn -> string;
  (** [str(uuid.uuid4())], by the number of identifiers drawn before *)
  uuid4 : nat -> string;
  (** [s.title()] *)
  py_title : string -> string
}.

(** [str(v)], which is also what an f-string puts for [{v}]. *)
Definition py_str (rt : runtime) (v : pyval) : string :=
  match v with
  | PStr s => s
  | _ => py_repr rt v
  end.

(** [str(e)]: a [KeyError] shows the [repr] of its key, which for the keys
    the program subscripts with is the key between single quotes. *)
Definition str_exn (rt : runtime) (e : exn) : string :=
  match e with
  | KeyError k => "'" ++ k ++ "'"
  | _ => exn_text rt e
  end.

(** ** The data model *)

Record WorkflowElement : Type := {
  id : pyval;
  type : pyval;
  position : pyval;
  config : pyval;
  status : pyval;
  output : pyval
}.

Definition set_position (e : WorkflowElement) (p : pyval) : WorkflowElement :=
  {| id := id e; type := type e; position := p; config := config e;
     status := status e; output := output e |}.

Definition set_config (e : WorkflowElement) (c : pyval) : WorkflowElement :=
  {| id := id e; type := type e; position := position e; config := c;
     status := status e; output := output e |}.

Definition set_status (e : WorkflowElement) (s : pyval) : WorkflowElement :=
  {| id := id e; type := type e; position := position e; config := config e;
     status := s; output := output e |}.

Definition set_output (e : WorkflowElement) (o : pyval) : WorkflowElement :=
  {| id := id e; type := type e; position := position e; config := config e;
     status := status e; output := o |}.

Definition pending : pyval := PStr "pending".
Definition ready : pyval := PStr "ready".
Definition processing : pyval := PStr "processing".
Definition error : pyval := PStr "error".

Definition xy (x y : Z) : pyval := PDict [("x", PInt x); ("y", PInt y)].

(** [st.session_state], with the number of identifiers [uuid4] has handed out
    so far. *)
Record session_state : Type := {
  workflow_elements : list WorkflowElement;
  workflow_data : pydict;
  execution_results : results;
  uuids_drawn : nat
}.

Definition initial_state : session_state :=
  {| workflow_elements := []; workflow_data := []; execution_results := [];
     uuids_drawn := 0 |}.

(** ** Display names and the report of a run *)

Fixpoint table_get (k : string) (t : list (string * string)) : option string :=
  match t with
  | [] => None
  | (k', v) :: r => if (k' =? k)%string then Some v else table_get k r
  end.

(** [names] of [get_element_display_name] *)
Definition names : list (string * string) :=
  [("pdf_upload", "PDF Upload"); ("text_input", "Text Input");
   ("number_input", "Number Input"); ("date_input", "Date Input");
   ("checkbox", "Checkbox"); ("slider", "Slider"); ("selectbox", "Select Box");
   ("conditional", "Conditional Logic"); ("loop", "Loop");
   ("data_display", "Data Display"); ("chart", "Chart");
   ("save_data", "Save Data"); ("api_call", "API Call"); ("email", "Email");
   ("timer", "Timer")].

(** [get_element_display_name]: [names.get(element_type,
    element_type.title())].  The default is an argument, evaluated before
    the lookup, so a type that is not a [str] raises for want of [title];
    [title] is [str.title], which the interpreter supplies. *)
Definition get_element_display_name (title : string -> string)
  (element_type : pyval) : raising string :=
  match element_type with
  | PStr t =>
      ret (match table_get t names with
           | Some n => n
           | None => title t
           end)
  | _ => raise (AttributeError element_type "title")
  end.

(** The three emoji of the report: a check mark, a cross, an hourglass. *)
Inductive mark : Type :=
| Done
| Failed
| Waiting.

Definition status_emoji (st : pyval) : mark :=
  if str_eq st "ready" then Done
  else if str_eq st "error" then Failed
  else Waiting.

(** The "Execution Results" expander at the end of [execute_workflow]: for
    every entry of the results, the first element with that id, and a line
    made of its emoji, the display name of its type and the result.  The
    element is looked for with [e.id == element_id], which is [==] and not
    the test of a key; the lines written before an exception stay. *)
Fixpoint show_results (rt : runtime) (title : string -> string)
  (els : list WorkflowElement) (res : results)
  : list (mark * string * string) * option exn :=
  match res with
  | [] => ([], None)
  | (element_id, result) :: rest =>
      match find (fun e => py_eqb (id e) element_id) els with
      | None => show_results rt title els rest
      | Some element =>
          match get_element_display_name title (type element) with
          | inl ex => ([], Some ex)
          | inr name =>
              let '(lines, r) := show_results rt title els rest in
              ((status_emoji (status element), name, py_str rt result) :: lines, r)
          end
      end
  end.

Section Program.

Variable rt : runtime.

(** [WorkflowElement.__init__]: [element_id or str(uuid.uuid4())] draws an
    identifier only when the given one is falsy. The second component is
    the number of identifiers drawn afterwards. *)
Definition new_element (element_type element_id : pyval) (drawn : nat)
  : WorkflowElement * nat :=
  let '(i, drawn') :=
    if truthy element_id then (element_id, drawn)
    else (PStr (uuid4 rt drawn), S drawn) in
  ({| id := i; type := element_type; position := xy 0 0;
      config := PDict []; status := pending; output := PNone |}, drawn').

(** [WorkflowElement.to_dict] *)
Definition to_dict (e : WorkflowElement) : pyval :=
  PDict [("id", id e); ("type", type e); ("position", position e);
         ("config", config e); ("status", status e); ("output", output e)].

(** [add_element_to_workflow] *)
Definition add_element_to_workflow (element_type : string) (s : session_state)
  : session_state :=
  let '(element, drawn) := new_element (PStr element_type) PNone (uuids_drawn s) in
  let element :=
    set_position element
      (xy (Z.of_nat (List.length (workflow_elements s)) * 100) 50) in
  {| workflow_elements := workflow_elements s ++ [element];
     workflow_data := workflow_data s;
     execution_results := execution_results s;
     uuids_drawn := drawn |}.

(** The delete button of [render_workflow_element]:
    [st.session_state.workflow_elements.pop(index)].  When [pop] raises,
    nothing has been assigned. *)
Definition delete_element (index : Z) (s : session_state)
  : session_state * option exn :=
  match list_pop (workflow_elements s) index with
  | inl ex => (s, Some ex)
  | inr (_, rest) =>
      ({| workflow_elements := rest;
          workflow_data := workflow_data s;
          execution_results := execution_results s;
          uuids_drawn := uuids_drawn s |}, None)
  end.

(** The Clear button of [create_element_palette]. *)
Definition clear_workflow (s : session_state) : session_state :=
  {| workflow_elements := []; workflow_data := []; execution_results := [];
     uuids_drawn := uuids_drawn s |}.

(** *** Configuration forms *)

(** What the Streamlit widgets of one element return in a render pass.  The
    widgets are the UI collaborator; [render_element_config] reads only the
    ones of the element's type. *)
Record widgets : Type := {
  uploaded_file : option (string * Z);   (* name and size, None when no file *)
  label : string;
  text : string;                         (* the "Input Text" area *)
  number : pyval;
  date : string;                         (* str(value) of the chosen date *)
  checked : bool;
  min_val : pyval;
  max_val : pyval;
  slider : Z;
  options_text : string;
  selected : nat;                        (* index of the chosen option *)
  condition_type : string;
  condition_value : string;
  true_action : string;
  false_action : string;
  display_type : string;
  chart_type : string;
  url : string;
  method : string;
  headers : string;
  recipient : string;
  subject : string;
  body : string
}.

(** [element.config[k] = v] *)
Definition config_assign (e : WorkflowElement) (k : string) (v : pyval)
  : raising WorkflowElement :=
  match config e with
  | PDict d => ret (set_config e (PDict (assign d k v)))
  | c => raise (TypeError (NoItemAssignment c))
  end.

(** [[opt.strip() for opt in options_text.split('\n') if opt.strip()]] *)
Definition parse_options (options_text : string) : list string :=
  map strip
    (filter (fun opt => truthy (PStr (strip opt))) (split_lines options_text)).

(** [render_element_config], without the drawing. *)
Definition render_element_config (e : WorkflowElement) (w : widgets)
  : raising WorkflowElement :=
  if str_eq (type e) "pdf_upload" then
    match uploaded_file w with
    | Some (name, size) =>
        e <- config_assign e "filename" (PStr name) ;;
        e <- config_assign e "size" (PInt size) ;;
        ret (set_status e ready)
    | None => ret e
    end
  else if str_eq (type e) "text_input" then
    let e := set_config e (PDict [("label", PStr (label w)); ("value", PStr (text w))]) in
    if truthy (PStr (text w)) then ret (set_status e ready) else ret e
  else if str_eq (type e) "number_input" then
    let e := set_config e (PDict [("label", PStr (label w)); ("value", number w)]) in
    ret (set_status e ready)
  else if str_eq (type e) "date_input" then
    let e := set_config e (PDict [("label", PStr (label w)); ("value", PStr (date w))]) in
    ret (set_status e ready)
  else if str_eq (type e) "checkbox" then
    let e := set_config e (PDict [("label", PStr (label w)); ("value", PBool (checked w))]) in
    ret (set_status e ready)
  else if str_eq (type e) "slider" then
    let e := set_config e
               (PDict [("label", PStr (label w)); ("min", min_val w);
                       ("max", max_val w); ("value", PInt (slider w))]) in
    ret (set_status e ready)
  else if str_eq (type e) "selectbox" then
    let options := parse_options (options_text w) in
    if truthy (PList (map PStr options)) then
      let value := nth (selected w) options (hd EmptyString options) in
      let e := set_config e
                 (PDict [("label", PStr (label w));
                         ("options", PList (map PStr options));
                         ("value", PStr value)]) in
      ret (set_status e ready)
    else ret e
  else if str_eq (type e) "conditional" then
    let e := set_config e
               (PDict [("condition_type", PStr (condition_type w));
                       ("condition_value", PStr (condition_value w));
                       ("true_action", PStr (true_action w));
                       ("false_action", PStr (false_action w))]) in
    ret (set_status e (if truthy (PStr (condition_value w)) then ready else pending))
  else if str_eq (type e) "data_display" then
    let e := set_config e (PDict [("display_type", PStr (display_type w))]) in
    ret (set_status e ready)
  else if str_eq (type e) "chart" then
    let e := set_config e (PDict [("chart_type", PStr (chart_type w))]) in
    ret (set_status e ready)
  else if str_eq (type e) "api_call" then
    let e := set_config e
               (PDict [("url", PStr (url w)); ("method", PStr (method w));
                       ("headers", PStr (headers w))]) in
    ret (set_status e (if truthy (PStr (url w)) then ready else pending))
  else if str_eq (type e) "email" then
    let e := set_config e
               (PDict [("recipient", PStr (recipient w));
                       ("subject", PStr (subject w)); ("body", PStr (body w))]) in
    ret (set_status e
           (if truthy (PStr (recipient w)) && truthy (PStr (subject w))
            then ready else pending))
  else
    (* st.write(f"**{get_element_display_name(element.type)} Configuration**") *)
    match type e with
    | PStr _ => ret e
    | _ => raise (AttributeError (type e) "title")
    end.

(** [l[i] = x] for an index within the list. *)
Fixpoint replace_nth {A} (n : nat) (x : A) (l : list A) : list A :=
  match l, n with
  | [], _ => []
  | _ :: r, O => x :: r
  | y :: r, S n' => y :: replace_nth n' x r
  end.

(** A config update of the element at position [i]: the render pass runs
    [render_element_config] on it with the values its widgets hold.  The
    element is an object of the list, so the list sees the update. *)
Definition update_config (i : nat) (w : widgets) (s : session_state)
  : session_state * option exn :=
  match nth_error (workflow_elements s) i with
  | None => (s, None)
  | Some e =>
      match render_element_config e w with
      | inl ex => (s, Some ex)
      | inr e' =>
          ({| workflow_elements := replace_nth i e' (workflow_elements s);
              workflow_data := workflow_data s;
              execution_results := execution_results s;
              uuids_drawn := uuids_drawn s |}, None)
      end
  end.

(** *** The executor *)

(** The body of the [try] in [execute_workflow]: the results after this
    element and the status it is left in, or the exception that reaches the
    handler. *)
Definition try_element (res : results) (e : WorkflowElement)
  : raising (results * pyval) :=
  if str_eq (type e) "pdf_upload" then
    has <- py_contains (config e) "filename" ;;
    if has then
      filename <- subscript (config e) "filename" ;;
      res <- store res (id e) (PStr ("PDF processed: " ++ py_str rt filename)) ;;
      ret (res, ready)
    else
      res <- store res (id e) (PStr "No PDF uploaded") ;;
      ret (res, error)
  else if in_strs (type e)
            ["text_input"; "number_input"; "date_input"; "checkbox"; "slider";
             "selectbox"] then
    value <- py_get (config e) "value" (PStr "No value") ;;
    res <- store res (id e) value ;;
    ret (res, ready)
  else if str_eq (type e) "conditional" then
    let condition_met := true in
    action <- (if condition_met then subscript (config e) "true_action"
               else subscript (config e) "false_action") ;;
    res <- store res (id e) (PStr ("Executed: " ++ py_str rt action)) ;;
    ret (res, ready)
  else if str_eq (type e) "data_display" then
    res <- store res (id e) (PStr "Data displayed successfully") ;;
    ret (res, ready)
  else if str_eq (type e) "api_call" then
    u <- py_get (config e) "url" (PStr "undefined") ;;
    res <- store res (id e) (PStr ("API call to " ++ py_str rt u ++ " completed")) ;;
    ret (res, ready)
  else if str_eq (type e) "email" then
    r <- py_get (config e) "recipient" (PStr "undefined") ;;
    res <- store res (id e) (PStr ("Email sent to " ++ py_str rt r)) ;;
    ret (res, ready)
  else
    res <- store res (id e) (PStr (py_str rt (type e) ++ " executed successfully")) ;;
    ret (res, ready).

(** One turn of the loop: the element is marked processing, then the [try]
    and its [except Exception] handler.  [time.sleep(0.5)] changes nothing.
    The handler's own store is outside any [try]: when it raises, the
    exception leaves the loop, with the element already marked [error]. *)
Definition process_element (res : results) (e : WorkflowElement)
  : WorkflowElement * raising results :=
  let e := set_status e processing in
  match try_element res e with
  | inr (res', st) => (set_status e st, ret res')
  | inl ex =>
      (set_status e error,
       store res (id e) (PStr ("Error: " ++ str_exn rt ex)))
  end.

(** The [for] loop over the elements: the elements as the loop leaves them,
    and the results or the exception that ended the loop. *)
Fixpoint run_elements (res : results) (els : list WorkflowElement)
  : list WorkflowElement * raising results :=
  match els with
  | [] => ([], ret res)
  | e :: rest =>
      match process_element res e with
      | (e', inl ex) => (e' :: rest, raise ex)
      | (e', inr res') =>
          let '(rest', r) := run_elements res' rest in
          (e' :: rest', r)
      end
  end.

Inductive run_outcome : Type :=
| NothingToExecute                  (* the warning, and an early return *)
| Completed (res : results)         (* the results stored and shown *)
| RunRaised (ex : exn).             (* an exception left the function *)

(** [execute_workflow] up to the store of the results: the guard, the loop
    and [st.session_state.execution_results = results]. *)
Definition run_and_store (s : session_state) : session_state * run_outcome :=
  match workflow_elements s with
  | [] => (s, NothingToExecute)
  | _ :: _ =>
      match run_elements [] (workflow_elements s) with
      | (els, inr res) =>
          ({| workflow_elements := els;
              workflow_data := workflow_data s;
              execution_results := res;
              uuids_drawn := uuids_drawn s |}, Completed res)
      | (els, inl ex) =>
          ({| workflow_elements := els;
              workflow_data := workflow_data s;
              execution_results := execution_results s;
              uuids_drawn := uuids_drawn s |}, RunRaised ex)
      end
  end.

(** [execute_workflow]: after the store, the report.  An exception of the
    report leaves the function as one of the loop would, with the results
    already stored. *)
Definition execute_workflow (s : session_state) : session_state * run_outcome :=
  let '(s', outcome) := run_and_store s in
  (s',
   match outcome with
   | Completed res =>
       match snd (show_results rt (py_title rt) (workflow_elements s') res) with
       | None => Completed res
       | Some ex => RunRaised ex
       end
   | _ => outcome
   end).

(** *** Export and import *)

(** The [workflow_data] dict [export_workflow] builds; [now] is
    [datetime.now().isoformat()].  [json.dumps] writes it out and
    [json.load] reads the same value back: the JSON text in between is the
    [json] module's business and is not modelled. *)
Definition export_workflow (now : string) (s : session_state) : pyval :=
  PDict [("elements", PList (map to_dict (workflow_elements s)));
         ("created_at", PStr now);
         ("version", PStr "1.0")].

(** One turn of the loop of [import_workflow], up to the [append]. *)
Definition load_element (element_data : pyval) (drawn : nat)
  : raising (WorkflowElement * nat) :=
  element_type <- subscript element_data "type" ;;
  element_id <- subscript element_data "id" ;;
  let '(element, drawn) := new_element element_type element_id drawn in
  p <- py_get element_data "position" (xy 0 0) ;;
  element <- ret (set_position element p) ;;
  c <- py_get element_data "config" (PDict []) ;;
  element <- ret (set_config element c) ;;
  st <- py_get element_data "status" pending ;;
  element <- ret (set_status element st) ;;
  o <- py_get element_data "output" PNone ;;
  element <- ret (set_output element o) ;;
  ret (element, drawn).

(** The loop: [els] is [st.session_state.workflow_elements] as it grows.  An
    exception stops the loop and leaves what was appended so far. *)
Fixpoint load_elements (items : list pyval) (els : list WorkflowElement)
  (drawn : nat) : list WorkflowElement * nat * option exn :=
  match items with
  | [] => (els, drawn, None)
  | element_data :: rest =>
      match load_element element_data drawn with
      | inl ex => (els, drawn, Some ex)
      | inr (element, drawn') => load_elements rest (els ++ [element]) drawn'
      end
  end.

Inductive import_outcome : Type :=
| Imported (count : nat)        (* st.success, then the rerun *)
| ImportFailed (ex : exn).      (* st.error in the handler *)

(** [import_workflow]; [uploaded] is what [json.load] makes of the file,
    [None] when it raises because the text is not JSON. *)
Definition import_workflow (uploaded : option pyval) (s : session_state)
  : session_state * import_outcome :=
  match uploaded with
  | None => (s, ImportFailed JSONDecodeError)
  | Some workflow_data' =>
      let cleared :=
        {| workflow_elements := [];
           workflow_data := workflow_data s;
           execution_results := execution_results s;
           uuids_drawn := uuids_drawn s |} in
      match (v <- py_get workflow_data' "elements" (PList []) ;; py_iter v) with
      | inl ex => (cleared, ImportFailed ex)
      | inr items =>
          let '(els, drawn, r) := load_elements items [] (uuids_drawn s) in
          let s' :=
            {| workflow_elements := els;
               workflow_data := workflow_data s;
               execution_results := execution_results s;
               uuids_drawn := drawn |} in
          match r with
          | None => (s', Imported (List.length els))
          | Some ex => (s', ImportFailed ex)
          end
      end
  end.

End Program.

(** ** Vocabulary of the statements *)

Definition is_str (v : pyval) : bool :=
  match v with
  | PStr _ => true
  | _ => false
  end.

(** The ids of a document are strings (the type [WorkflowElement.__init__]
    declares for them) and no two are the same. *)
Definition string_ids (els : list WorkflowElement) : Prop :=
  forallb (fun e => is_str (id e)) els = true.

Definition unique_ids (els : list WorkflowElement) : Prop :=
  NoDup (map id els).

(** The ids a run can use as keys, and ids no two of which are the same
    key: what a run needs of the ids, strings or not. *)
Definition hashable_ids (els : list WorkflowElement) : Prop :=
  forallb (fun e => hashable (id e)) els = true.

Fixpoint distinct_keys (ks : list pyval) : bool :=
  match ks with
  | [] => true
  | k :: rest => forallb (fun k' => negb (key_eqb k k')) rest && distinct_keys rest
  end.

Definition distinct_ids (els : list WorkflowElement) : Prop :=
  distinct_keys (map id els) = true.

Definition string_types (els : list WorkflowElement) : Prop :=
  Forall (fun e => is_str (type e) = true) els.

(** Every field of an element but its status. *)
Definition frame (e : WorkflowElement) : pyval * pyval * pyval * pyval * pyval :=
  (id e, type e, position e, config e, output e).

Definition valid_status (v : pyval) : Prop :=
  v = pending \/ v = ready \/ v = processing \/ v = error.

Definition statuses_valid (s : session_state) : Prop :=
  Forall (fun e => valid_status (status e)) (workflow_elements s).

(** The result and the status the [try] of [execute_workflow] arrives at for
    an element, before the result is stored: the dispatch on the type. *)
Definition element_result (rt : runtime) (e : WorkflowElement)
  : raising (pyval * pyval) :=
  if str_eq (type e) "pdf_upload" then
    has <- py_contains (config e) "filename" ;;
    if has then
      filename <- subscript (config e) "filename" ;;
      ret (PStr ("PDF processed: " ++ py_str rt filename), ready)
    else ret (PStr "No PDF uploaded", error)
  else if in_strs (type e)
            ["text_input"; "number_input"; "date_input"; "checkbox"; "slider";
             "selectbox"] then
    value <- py_get (config e) "value" (PStr "No value") ;;
    ret (value, ready)
  else if str_eq (type e) "conditional" then
    action <- subscript (config e) "true_action" ;;
    ret (PStr ("Executed: " ++ py_str rt action), ready)
  else if str_eq (type e) "data_display" then
    ret (PStr "Data displayed successfully", ready)
  else if str_eq (type e) "api_call" then
    u <- py_get (config e) "url" (PStr "undefined") ;;
    ret (PStr ("API call to " ++ py_str rt u ++ " completed"), ready)
  else if str_eq (type e) "email" then
    r <- py_get (config e) "recipient" (PStr "undefined") ;;
    ret (PStr ("Email sent to " ++ py_str rt r), ready)
  else ret (PStr (py_str rt (type e) ++ " executed successfully"), ready).

(** The terminal status and the result of an element, the handler included. *)
Definition verdict (rt : runtime) (e : WorkflowElement) : pyval * pyval :=
  match element_result rt e with
  | inr (v, st) => (st, v)
  | inl ex => (error, PStr ("Error: " ++ str_exn rt ex))
  end.

Definition settle (rt : runtime) (e : WorkflowElement) : WorkflowElement :=
  set_status e (fst (verdict rt e)).

Definition record (rt : runtime) (res : results) (e : WorkflowElement) : results :=
  results_set res (id e) (snd (verdict rt e)).

(** An imported element declares a valid status when its dict holds no
    status or one of the four; a document does when the elements of its list
    do. *)
Definition declares_valid_status (element_data : pyval) : Prop :=
  forall ed v,
    element_data = PDict ed -> lookup "status" ed = Some v -> valid_status v.

Definition document_statuses_valid (doc : pyval) : Prop :=
  forall d es,
    doc = PDict d -> lookup "elements" d = Some (PList es) ->
    Forall declares_valid_status es.

(** The element [add_element_to_workflow] builds when [k] identifiers have
    been drawn and the document holds [n] elements. *)
Definition added (rt : runtime) (k n : nat) (t : string) : WorkflowElement :=
  {| id := PStr (uuid4 rt k); type := PStr t;
     position := xy (Z.of_nat n * 100) 50; config := PDict [];
     status := pending; output := PNone |}.

Fixpoint added_from (rt : runtime) (k n : nat) (ts : list string)
  : list WorkflowElement :=
  match ts with
  | [] => []
  | t :: r => added rt k n t :: added_from rt (S k) (S n) r
  end.

(** A sequence of [add_element_to_workflow] calls. *)
Definition add_all (rt : runtime) (ts : list string) (s : session_state)
  : session_state :=
  fold_left (fun s t => add_element_to_workflow rt t s) ts s.

(** The sessions the program can be in: what the buttons and the render
    pass make of the initial state. *)
Inductive reachable (rt : runtime) : session_state -> Prop :=
| reach_initial : reachable rt initial_state
| reach_add t s :
    reachable rt s -> reachable rt (add_element_to_workflow rt t s)
| reach_delete i s :
    reachable rt s -> reachable rt (fst (delete_element i s))
| reach_update i w s :
    reachable rt s -> reachable rt (fst (update_config i w s))
| reach_run s :
    reachable rt s -> reachable rt (fst (execute_workflow rt s))
| reach_clear s :
    reachable rt s -> reachable rt (clear_workflow s)
| reach_import uploaded s :
    reachable rt s -> reachable rt (fst (import_workflow rt uploaded s)).

(** The widgets of an element as Streamlit first shows them, with [t] typed
    into the text area. *)
Definition form_with_text (t : string) : widgets :=
  {| uploaded_file := None; label := "Enter text"; text := t;
     number := PInt 0; date := "2024-01-01"; checked := false;
     min_val := PInt 0; max_val := PInt 100; slider := 0;
     options_text := "Option 1"; selected := 0;
     condition_type := "equals"; condition_value := "";
     true_action := ""; false_action := "";
     display_type := "table"; chart_type := "line";
     url := ""; method := "GET"; headers := "{}";
     recipient := ""; subject := ""; body := "" |}.

(** A document whose only element declares a status outside the four. *)
Definition document_with_odd_status : pyval :=
  PDict [("elements",
          PList [PDict [("id", PStr "a"); ("type", PStr "timer");
                        ("status", PStr "done")]])].

(** The horizontal slot of an element, and an element sitting after another
    on the canvas. *)
Definition x_coordinate (e : WorkflowElement) : option Z :=
  match position e with
  | PDict d =>
      match lookup "x" d with
      | Some (PInt x) => Some x
      | _ => None
      end
  | _ => None
  end.

Definition placed_after (e new : WorkflowElement) : Prop :=
  match x_coordinate e, x_coordinate new with
  | Some a, Some b => a < b
  | _, _ => False
  end.

(** *** Sample data for the examples *)

Fixpoint tally (n : nat) : string :=
  match n with
  | O => EmptyString
  | S k => String "1" (tally k)
  end.

(** A runtime to run the examples with: identifiers "uuid-", "uuid-1",
    "uuid-11", ...; what it prints for values and exceptions, and the
    capitals it gives a title, are immaterial. *)
Definition demo_runtime : runtime :=
  {| py_repr := fun _ => "<value>";
     exn_text := fun _ => "<message>";
     uuid4 := fun n => "uuid-" ++ tally n;
     py_title := fun t => t |}.

(** One element added, the workflow run, the element deleted again: no
    element is left, and the results of the run are still stored. *)
Definition emptied_after_run (rt : runtime) : session_state :=
  fst (delete_element 0
         (fst (execute_workflow rt
                 (add_element_to_workflow rt "timer" initial_state)))).

Definition element_with (i : string) (t : string) (c : pydict) (st : pyval)
  : WorkflowElement :=
  {| id := PStr i; type := PStr t; position := xy 0 0; config := PDict c;
     status := st; output := PNone |}.

Definition session_of (els : list WorkflowElement) : session_state :=
  {| workflow_elements := els; workflow_data := []; execution_results := [];
     uuids_drawn := 0 |}.

Definition with_results (s : session_state) (res : results) : session_state :=
  {| workflow_elements := workflow_elements s;
     workflow_data := workflow_data s;
     execution_results := res;
     uuids_drawn := uuids_drawn s |}.

Definition demo_condition : pydict :=
  [("condition_type", PStr "equals"); ("condition_value", PStr "");
   ("true_action", PStr "X"); ("false_action", PStr "Y")].

Definition demo_upload : pydict :=
  [("filename", PStr "a.pdf"); ("size", PInt 3)].

(** ** The rest of the page: the palette, the indicator and the metrics *)

(** The element types the palette of [create_element_palette] offers, in
    the order of its buttons. *)
Definition element_types : list string :=
  ["pdf_upload"; "text_input"; "number_input"; "date_input"; "checkbox";
   "slider"; "selectbox"; "conditional"; "loop"; "data_display"; "chart";
   "save_data"; "api_call"; "email"; "timer"].

(** [status_colors] of [render_workflow_element] *)
Definition status_colors : list (string * string) :=
  [("pending", "status-pending"); ("ready", "status-ready");
   ("processing", "status-processing"); ("error", "status-error")].

(** [status_colors.get(element.status, 'status-pending')]: the class of the
    indicator drawn for an element. *)
Definition status_class (st : pyval) : raising string :=
  match st with
  | PStr s =>
      ret (match table_get s status_colors with
           | Some c => c
           | None => "status-pending"
           end)
  | _ =>
      if hashable st then ret "status-pending"
      else raise (TypeError (Unhashable st))
  end.

(** The four metrics of [main]. *)
Record metrics : Type := {
  total_elements : Z;
  ready_elements : Z;
  pending_elements : Z;
  error_elements : Z
}.

(** [sum(1 for e in elements if e.status == s)] *)
Definition count_status (s : string) (els : list WorkflowElement) : Z :=
  Z.of_nat (List.length (filter (fun e => str_eq (status e) s) els)).

(** The statistics of [main], shown when there is an element. *)
Definition statistics (s : session_state) : option metrics :=
  match workflow_elements s with
  | [] => None
  | els =>
      let total := Z.of_nat (List.length els) in
      let ready_count := count_status "ready" els in
      let error_count := count_status "error" els in
      Some {| total_elements := total;
              ready_elements := ready_count;
              pending_elements := total - ready_count - error_count;
              error_elements := error_count |}
  end.

(** A run leaves the element at position [i], which was [e], in status [st],
    and the results it stores hold [v] for the id of [e]. *)
Definition run_gives (rt : runtime) (s : session_state) (i : nat)
  (e : WorkflowElement) (st v : pyval) : Prop :=
  results_get (id e) (execution_results (fst (execute_workflow rt s))) = Some v /\
  nth_error (workflow_elements (fst (execute_workflow rt s))) i
  = Some (set_status e st).

Definition terminal (e : WorkflowElement) : Prop :=
  status e = ready \/ status e = error.

(** The types whose branch of [execute_workflow] reads the config. *)
Definition config_reading_types : list string :=
  ["pdf_upload"; "text_input"; "number_input"; "date_input"; "checkbox";
   "slider"; "selectbox"; "conditional"; "api_call"; "email"].

(** The types [render_element_config] has a form for, whatever the widgets
    hold. *)
Definition always_configured_types : list string :=
  ["text_input"; "number_input"; "date_input"; "checkbox"; "slider";
   "conditional"; "data_display"; "chart"; "api_call"; "email"].

Definition is_dict (v : pyval) : bool :=
  match v with
  | PDict _ => true
  | _ => false
  end.

(** What [render_element_config] asks of the widgets of a conditional, an
    api_call or an email element to call it ready: a condition value, a
    url, a recipient and a subject. *)
Definition widgets_complete (t : pyval) (w : widgets) : bool :=
  if str_eq t "conditional" then truthy (PStr (condition_value w))
  else if str_eq t "api_call" then truthy (PStr (url w))
  else truthy (PStr (recipient w)) && truthy (PStr (subject w)).

Definition with_elements (s : session_state) (els : list WorkflowElement)
  : session_state :=
  {| workflow_elements := els;
     workflow_data := workflow_data s;
     execution_results := execution_results s;
     uuids_drawn := uuids_drawn s |}.

(** [ed.get(k, default)] on the dict of an imported element. *)
Definition field_or (ed : pydict) (k : string) (default : pyval) : pyval :=
  match lookup k ed with
  | Some v => v
  | None => default
  end.

(** An item of the imported list that holds [type] and [id]. *)
Definition well_formed_item (x : pyval) : Prop :=
  exists ed t i,
    x = PDict ed /\ lookup "type" ed = Some t /\ lookup "id" ed = Some i.

(** The element [e] is what [import_workflow] makes of the item [x]. *)
Definition loads_as (rt : runtime) (x : pyval) (e : WorkflowElement) : Prop :=
  exists ed t i,
    x = PDict ed /\ lookup "type" ed = Some t /\ lookup "id" ed = Some i /\
    type e = t /\
    (if truthy i then id e = i else exists k, id e = PStr (uuid4 rt k)) /\
    position e = field_or ed "position" (xy 0 0) /\
    config e = field_or ed "config" (PDict []) /\
    status e = field_or ed "status" pending /\
    output e = field_or ed "output" PNone.

(** The sessions a user builds without importing anything. *)
Inductive built (rt : runtime) : session_state -> Prop :=
| built_initial : built rt initial_state
| built_add t s :
    built rt s -> built rt (add_element_to_workflow rt t s)
| built_delete i s :
    built rt s -> built rt (fst (delete_element i s))
| built_update i w s :
    built rt s -> built rt (fst (update_config i w s))
| built_run s :
    built rt s -> built rt (fst (execute_workflow rt s))
| built_clear s :
    built rt s -> built rt (clear_workflow s).

(** ** The built-ins on sample values *)

Example parse_options_default :
  parse_options ("Option 1" ++ String newline (" Option 2 " ++ String newline ""))
  = ["Option 1"; "Option 2"].
Proof. reflexivity. Qed.

Example contains_by_type :
  py_contains (PDict demo_upload) "filename" = ret true /\
  py_contains (PList [PStr "filename"]) "filename" = ret true /\
  py_contains (PStr "my filename") "filename" = ret true /\
  py_contains PNone "filename" = raise (TypeError (NotContainer PNone)).
Proof. repeat split. Qed.

Example keys_compare_by_value :
  results_set [(PInt 1, PStr "one")] (PBool true) (PStr "yes") = [(PInt 1, PStr "yes")] /\
  results_set [(PInt 1, PStr "one")] (PStr "1") (PStr "text")
  = [(PInt 1, PStr "one"); (PStr "1", PStr "text")].
Proof. split; reflexivity. Qed.

Example pop_counts_from_the_end :
  list_pop [1; 2; 3] (-1) = ret (3, [1; 2]) /\
  list_pop [1; 2; 3] 0 = ret (1, [2; 3]) /\
  list_pop [1; 2; 3] 3 = raise IndexError /\
  list_pop [1; 2; 3] (-4) = raise IndexError.
Proof. repeat split. Qed.

Example falsy_id_is_replaced (rt : runtime) :
  new_element rt (PStr "timer") (PStr "") 7
  = (element_with (uuid4 rt 7) "timer" [] pending, 8%nat) /\
  new_element rt (PStr "timer") (PStr "a") 7
  = (element_with "a" "timer" [] pending, 7%nat).
Proof. split; reflexivity. Qed.

(** ** The results dict *)

Lemma key_eqb_str_inv (k : pyval) (a : string) :
  key_eqb k (PStr a) = true -> k = PStr a.
Proof.
  destruct k as [| b | z | f | s | l | d]; simpl; try discriminate.
  - destruct f; discriminate.
  - intros H. apply String.eqb_eq in H. now subst.
Qed.

Lemma key_eqb_str_refl (a : string) : key_eqb (PStr a) (PStr a) = true.
Proof. simpl. apply String.eqb_refl. Qed.

Lemma SFeqb_refl (f : spec_float) : f <> S754_nan -> SFeqb f f = true.
Proof.
  unfold SFeqb, SFcompare.
  destruct f as [s | s | | s m e]; intros H; try congruence.
  - now destruct s.
  - rewrite Z.compare_refl, Pos.compare_cont_refl. now destruct s.
Qed.

(** A key is found under itself: a hashable value is the key it is. *)
Lemma key_eqb_refl (k : pyval) : hashable k = true -> key_eqb k k = true.
Proof.
  destruct k as [| b | z | f | s | l | d]; simpl; try discriminate; intros _.
  - reflexivity.
  - apply Z.eqb_refl.
  - apply Z.eqb_refl.
  - destruct f; try reflexivity; apply SFeqb_refl; discriminate.
  - apply String.eqb_refl.
Qed.

Lemma results_get_set (d : results) (k v : pyval) :
  key_eqb k k = true -> results_get k (results_set d k v) = Some v.
Proof.
  intros Hk. induction d as [| [k' v'] r IH]; simpl.
  - now rewrite Hk.
  - destruct (key_eqb k' k) eqn:E; simpl; now rewrite E.
Qed.

Lemma results_get_set_same (d : results) (a : string) (v : pyval) :
  results_get (PStr a) (results_set d (PStr a) v) = Some v.
Proof. apply results_get_set, key_eqb_str_refl. Qed.

Lemma results_get_set_other (d : results) (a b : string) (v : pyval) :
  a <> b ->
  results_get (PStr a) (results_set d (PStr b) v) = results_get (PStr a) d.
Proof.
  intros Hab. induction d as [| [k' v'] r IH]; simpl.
  - destruct (String.eqb_spec b a); congruence.
  - destruct (key_eqb k' (PStr b)) eqn:E; simpl.
    + apply key_eqb_str_inv in E. subst k'. simpl.
      destruct (String.eqb_spec b a); congruence.
    + destruct (key_eqb k' (PStr a)); auto.
Qed.

(** A key that none of the keys before it equals goes to the end. *)
Lemma results_set_new (d : results) (k v : pyval) :
  forallb (fun k' => negb (key_eqb k' k)) (map fst d) = true ->
  results_set d k v = (d ++ [(k, v)])%list.
Proof.
  induction d as [| [k' v'] r IH]; simpl; intros Hn; auto.
  apply andb_prop in Hn. destruct Hn as [Hk Hr].
  destruct (key_eqb k' k); [discriminate |].
  now rewrite IH.
Qed.

Lemma results_set_fresh (d : results) (a : string) (v : pyval) :
  ~ In (PStr a) (map fst d) ->
  results_set d (PStr a) v = (d ++ [(PStr a, v)])%list.
Proof.
  intros Hn. apply results_set_new. apply forallb_forall. intros k' Hin.
  destruct (key_eqb k' (PStr a)) eqn:E; [| reflexivity].
  apply key_eqb_str_inv in E. subst k'. contradiction.
Qed.

Lemma distinct_keys_app (l : list pyval) (k : pyval) (r : list pyval) :
  distinct_keys (l ++ k :: r) = true ->
  forallb (fun k' => negb (key_eqb k' k)) l = true /\
  distinct_keys ((l ++ [k]) ++ r) = true.
Proof.
  intros H. split.
  - induction l as [| x l IH]; simpl in *; auto.
    apply andb_prop in H. destruct H as [Hx Hl].
    rewrite forallb_app in Hx. apply andb_prop in Hx. destruct Hx as [_ Hx].
    simpl in Hx. apply andb_prop in Hx. destruct Hx as [-> _]. simpl. auto.
  - now rewrite <- app_assoc.
Qed.

(** String ids are keys, and distinct strings are distinct keys. *)
Lemma string_ids_hashable (els : list WorkflowElement) :
  string_ids els -> hashable_ids els.
Proof.
  unfold string_ids, hashable_ids. rewrite !forallb_forall.
  intros H e He. specialize (H e He). destruct (id e); simpl in *; congruence.
Qed.

Lemma string_ids_distinct (els : list WorkflowElement) :
  string_ids els -> unique_ids els -> distinct_ids els.
Proof.
  unfold string_ids, unique_ids, distinct_ids.
  induction els as [| e rest IH]; simpl; intros Hs Hn; auto.
  apply andb_prop in Hs. destruct Hs as [He Hs].
  inversion Hn as [| ? ? Hnot Hn']; subst.
  rewrite IH by assumption. rewrite andb_true_r.
  apply forallb_forall. intros k Hk.
  destruct (key_eqb (id e) k) eqn:E; [| reflexivity].
  apply in_map_iff in Hk. destruct Hk as (x & <- & Hx).
  rewrite forallb_forall in Hs. specialize (Hs x Hx).
  destruct (id x) as [| | | | a | |] eqn:Ex; try discriminate.
  apply key_eqb_str_inv in E. exfalso. apply Hnot. rewrite E, <- Ex.
  now apply in_map.
Qed.

(** ** The executor, element by element *)

Section Executor.

Variable rt : runtime.

Ltac case_bind c := destruct c as [?ex | ?x]; simpl; auto.

(** The [try] computes a result and a status from the element alone, and
    stores the result under the element's id. *)
Lemma try_element_result (res : results) (e : WorkflowElement) :
  try_element rt res e =
  (vs <- element_result rt e ;;
   res' <- store res (id e) (fst vs) ;;
   ret (res', snd vs)).
Proof.
  unfold try_element, element_result.
  destruct (str_eq (type e) "pdf_upload").
  { case_bind (py_contains (config e) "filename").
    destruct x; simpl.
    - case_bind (subscript (config e) "filename").
    - reflexivity. }
  destruct (in_strs (type e) _).
  { case_bind (py_get (config e) "value" (PStr "No value")). }
  destruct (str_eq (type e) "conditional").
  { case_bind (subscript (config e) "true_action"). }
  destruct (str_eq (type e) "data_display"); [reflexivity |].
  destruct (str_eq (type e) "api_call").
  { case_bind (py_get (config e) "url" (PStr "undefined")). }
  destruct (str_eq (type e) "email").
  { case_bind (py_get (config e) "recipient" (PStr "undefined")). }
  reflexivity.
Qed.

Lemma process_element_hashable (res : results) (e : WorkflowElement) :
  hashable (id e) = true ->
  process_element rt res e = (settle rt e, ret (record rt res e)).
Proof.
  intros H. unfold process_element, settle, record, verdict. cbv zeta.
  rewrite try_element_result.
  change (element_result rt (set_status e processing)) with (element_result rt e).
  destruct (element_result rt e) as [ex | [v st]]; simpl;
    unfold store; rewrite H; reflexivity.
Qed.

(** With ids that can be keys no store raises: the loop settles every
    element and records every result, in document order. *)
Lemma run_elements_hashable_ids (els : list WorkflowElement) :
  forall res,
    hashable_ids els ->
    run_elements rt res els = (map (settle rt) els, ret (fold_left (record rt) els res)).
Proof.
  unfold hashable_ids.
  induction els as [| e rest IH]; intros res H; simpl in *; auto.
  apply andb_prop in H. destruct H as [He Hrest].
  rewrite process_element_hashable by assumption.
  simpl. rewrite IH by assumption. reflexivity.
Qed.


(** The loop never touches anything but the status of an element. *)
Lemma process_element_frame (res : results) (e : WorkflowElement) :
  frame (fst (process_element rt res e)) = frame e.
Proof.
  unfold process_element. cbv zeta.
  destruct (try_element rt res (set_status e processing)) as [ex | [res' st]];
    reflexivity.
Qed.

Lemma run_elements_frame (els : list WorkflowElement) :
  forall res, map frame (fst (run_elements rt res els)) = map frame els.
Proof.
  induction els as [| e rest IH]; intros res; simpl; auto.
  pose proof (process_element_frame res e) as Hf.
  destruct (process_element rt res e) as [e' [ex | res']]; simpl in *.
  - now rewrite Hf.
  - specialize (IH res').
    destruct (run_elements rt res' rest) as [rest' r]; simpl in *.
    now rewrite Hf, IH.
Qed.

End Executor.

(** ** The executor, over a document *)

Section Run.

Variable rt : runtime.

Lemma string_ids_inv (e : WorkflowElement) (rest : list WorkflowElement) :
  string_ids (e :: rest) ->
  (exists a, id e = PStr a) /\ string_ids rest.
Proof.
  unfold string_ids. simpl. intros H.
  apply andb_prop in H. destruct H as [He Hr]. split; auto.
  destruct (id e); try discriminate. eauto.
Qed.

Lemma record_get_other (els : list WorkflowElement) (a : string) :
  forall res,
    string_ids els ->
    ~ In (PStr a) (map id els) ->
    results_get (PStr a) (fold_left (record rt) els res) = results_get (PStr a) res.
Proof.
  induction els as [| e rest IH]; intros res Hs Hn; simpl; auto.
  apply string_ids_inv in Hs. destruct Hs as [[b Hb] Hs].
  simpl in Hn. rewrite IH by tauto.
  unfold record. rewrite Hb in *.
  apply results_get_set_other. intros ->. tauto.
Qed.

Lemma record_get (els : list WorkflowElement) :
  forall res i e,
    string_ids els ->
    unique_ids els ->
    nth_error els i = Some e ->
    results_get (id e) (fold_left (record rt) els res) = Some (snd (verdict rt e)).
Proof.
  unfold unique_ids.
  induction els as [| e0 rest IH]; intros res i e Hs Hn Hi.
  - destruct i; discriminate.
  - pose proof (string_ids_inv _ _ Hs) as [[a Ha] Hs'].
    simpl in Hn. inversion Hn as [| ? ? Hnotin Hn']; subst.
    destruct i as [| i]; simpl in Hi.
    + inversion Hi; subst e0. simpl. rewrite Ha in *.
      rewrite record_get_other by assumption.
      unfold record. rewrite Ha. apply results_get_set_same.
    + simpl. eapply IH; eauto.
Qed.

(** With ids that are pairwise-distinct keys every element gets an entry of
    its own, after the entries there were. *)
Lemma record_listed (els : list WorkflowElement) :
  forall res,
    distinct_keys (map fst res ++ map id els) = true ->
    fold_left (record rt) els res
    = (res ++ map (fun e => (id e, snd (verdict rt e))) els)%list.
Proof.
  induction els as [| e rest IH]; intros res Hd; simpl.
  - now rewrite app_nil_r.
  - simpl in Hd. apply distinct_keys_app in Hd. destruct Hd as [Hnew Hd].
    unfold record at 2. rewrite results_set_new by assumption.
    rewrite IH.
    + now rewrite <- app_assoc.
    + rewrite map_app. exact Hd.
Qed.

Lemma results_get_listed (f : WorkflowElement -> pyval) (els : list WorkflowElement) :
  forall e,
    hashable_ids els ->
    distinct_ids els ->
    In e els ->
    results_get (id e) (map (fun x => (id x, f x)) els) = Some (f e).
Proof.
  unfold hashable_ids, distinct_ids.
  induction els as [| e0 rest IH]; intros e Hh Hd Hin; [contradiction |].
  simpl in *.
  apply andb_prop in Hh. destruct Hh as [Hh0 Hh].
  apply andb_prop in Hd. destruct Hd as [Hd0 Hd].
  destruct Hin as [-> | Hin].
  - now rewrite key_eqb_refl.
  - rewrite forallb_forall in Hd0.
    specialize (Hd0 (id e) (in_map id _ _ Hin)).
    destruct (key_eqb (id e0) (id e)); [discriminate |]. auto.
Qed.

(** What [execute_workflow] does, up to the report, to a document whose ids
    can be keys. *)
Lemma run_and_store_hashable_ids (s : session_state) :
  workflow_elements s <> [] ->
  hashable_ids (workflow_elements s) ->
  run_and_store rt s =
  ({| workflow_elements := map (settle rt) (workflow_elements s);
      workflow_data := workflow_data s;
      execution_results := fold_left (record rt) (workflow_elements s) [];
      uuids_drawn := uuids_drawn s |},
   Completed (fold_left (record rt) (workflow_elements s) [])).
Proof.
  intros Hne Hs. unfold run_and_store.
  destruct (workflow_elements s) as [| e rest] eqn:E; [congruence |].
  rewrite run_elements_hashable_ids by assumption. reflexivity.
Qed.

Lemma run_and_store_string_ids (s : session_state) :
  workflow_elements s <> [] ->
  string_ids (workflow_elements s) ->
  run_and_store rt s =
  ({| workflow_elements := map (settle rt) (workflow_elements s);
      workflow_data := workflow_data s;
      execution_results := fold_left (record rt) (workflow_elements s) [];
      uuids_drawn := uuids_drawn s |},
   Completed (fold_left (record rt) (workflow_elements s) [])).
Proof.
  intros Hne Hs. now apply run_and_store_hashable_ids, string_ids_hashable.
Qed.

(** The report changes nothing of the session: what a run leaves is what
    the store left. *)
Lemma execute_workflow_fst (s : session_state) :
  fst (execute_workflow rt s) = fst (run_and_store rt s).
Proof.
  unfold execute_workflow. now destruct (run_and_store rt s).
Qed.

Lemma execute_workflow_snd (s : session_state) :
  snd (execute_workflow rt s)
  = match snd (run_and_store rt s) with
    | Completed res =>
        match snd (show_results rt (py_title rt)
                     (workflow_elements (fst (run_and_store rt s))) res) with
        | None => Completed res
        | Some ex => RunRaised ex
        end
    | outcome => outcome
    end.
Proof.
  unfold execute_workflow.
  destruct (run_and_store rt s) as [s' [| res | ex]]; reflexivity.
Qed.

(** Without elements the guard returns before anything is done. *)
Lemma execute_workflow_nothing (s : session_state) :
  workflow_elements s = [] -> execute_workflow rt s = (s, NothingToExecute).
Proof.
  intros E. unfold execute_workflow, run_and_store. now rewrite E.
Qed.

Lemma execute_workflow_stored (s : session_state) :
  workflow_elements s <> [] ->
  hashable_ids (workflow_elements s) ->
  fst (execute_workflow rt s) =
  {| workflow_elements := map (settle rt) (workflow_elements s);
     workflow_data := workflow_data s;
     execution_results := fold_left (record rt) (workflow_elements s) [];
     uuids_drawn := uuids_drawn s |}.
Proof.
  intros Hne Hs.
  now rewrite execute_workflow_fst, run_and_store_hashable_ids.
Qed.

(** The report raises for nothing but a type without [title]: over elements
    whose types are strings it goes through, whatever the results are. *)
Lemma show_results_string_types
  (title : string -> string) (els : list WorkflowElement) (res : results) :
  string_types els -> snd (show_results rt title els res) = None.
Proof.
  intros Ht. induction res as [| [k v] rest IH]; simpl; auto.
  destruct (find (fun e => py_eqb (id e) k) els) as [element |] eqn:F; auto.
  apply find_some in F. destruct F as [Hin _].
  unfold string_types in Ht. rewrite Forall_forall in Ht.
  specialize (Ht element Hin).
  destruct (type element); try discriminate. simpl.
  destruct (show_results rt title els rest). exact IH.
Qed.

Lemma settle_string_types (els : list WorkflowElement) :
  string_types els -> string_types (map (settle rt) els).
Proof.
  unfold string_types. intros H. apply Forall_map.
  eapply Forall_impl; [| exact H]. auto.
Qed.

(** What [execute_workflow] does to a document whose ids are strings and
    whose types are strings. *)
Lemma execute_workflow_string_ids (s : session_state) :
  workflow_elements s <> [] ->
  string_ids (workflow_elements s) ->
  string_types (workflow_elements s) ->
  execute_workflow rt s =
  ({| workflow_elements := map (settle rt) (workflow_elements s);
      workflow_data := workflow_data s;
      execution_results := fold_left (record rt) (workflow_elements s) [];
      uuids_drawn := uuids_drawn s |},
   Completed (fold_left (record rt) (workflow_elements s) [])).
Proof.
  intros Hne Hs Ht. unfold execute_workflow.
  rewrite run_and_store_string_ids by assumption.
  cbn [workflow_elements].
  now rewrite show_results_string_types by now apply settle_string_types.
Qed.

(** A run whose loop finishes completes when the types are strings. *)
Lemma execute_workflow_completes (s : session_state) :
  workflow_elements s <> [] ->
  hashable_ids (workflow_elements s) ->
  string_types (workflow_elements s) ->
  snd (execute_workflow rt s)
  = Completed (execution_results (fst (execute_workflow rt s))).
Proof.
  intros Hne Hs Ht. unfold execute_workflow.
  rewrite run_and_store_hashable_ids by assumption.
  cbn [workflow_elements fst snd execution_results].
  now rewrite show_results_string_types by now apply settle_string_types.
Qed.

End Run.


(** ** Running a workflow *)

(** C1, as amended.  For a document whose ids can be keys of a dict and are
    pairwise distinct as keys: when it has no element, [execute_workflow]
    warns and returns at once, leaving the session (the stored results
    included) as it was; otherwise, whatever the elements are and however
    each one ends, the results it stores are made of the elements alone,
    whatever was stored before: exactly one entry per element, keyed by the
    element ids in document order.  When moreover every type is a string,
    the report that follows the store goes through and the run completes
    with these results. *)
Theorem run_covers_every_element (rt : runtime) (s : session_state) :
  hashable_ids (workflow_elements s) ->
  distinct_ids (workflow_elements s) ->
  match workflow_elements s with
  | [] => execute_workflow rt s = (s, NothingToExecute)
  | _ :: _ =>
      execution_results (fst (execute_workflow rt s))
      = map (fun e => (id e, snd (verdict rt e))) (workflow_elements s) /\
      map fst (execution_results (fst (execute_workflow rt s)))
      = map id (workflow_elements s) /\
      List.length (execution_results (fst (execute_workflow rt s)))
      = List.length (workflow_elements s) /\
      (string_types (workflow_elements s) ->
       snd (execute_workflow rt s)
       = Completed (execution_results (fst (execute_workflow rt s))))
  end.
Proof.
  intros Hs Hu.
  destruct (workflow_elements s) as [| e rest] eqn:E.
  - now apply execute_workflow_nothing.
  - assert (Hne : workflow_elements s <> []) by (rewrite E; discriminate).
    rewrite <- E in *.
    assert (Hr : execution_results (fst (execute_workflow rt s))
                 = map (fun e => (id e, snd (verdict rt e))) (workflow_elements s)).
    { rewrite execute_workflow_stored by assumption.
      cbn [execution_results]. now rewrite record_listed. }
    split; [exact Hr |]. rewrite Hr. split; [| split].
    + rewrite map_map. reflexivity.
    + apply length_map.
    + intros Ht. rewrite <- Hr. now apply execute_workflow_completes.
Qed.

Lemma run_covers_every_element_witness :
  execution_results
    (fst (execute_workflow demo_runtime
            (session_of [element_with "a" "pdf_upload" [] pending;
                         element_with "b" "conditional" [] ready])))
  = map (fun e => (id e, snd (verdict demo_runtime e)))
      [element_with "a" "pdf_upload" [] pending;
       element_with "b" "conditional" [] ready] /\
  map fst
    (execution_results
       (fst (execute_workflow demo_runtime
               (session_of [element_with "a" "pdf_upload" [] pending;
                            element_with "b" "conditional" [] ready]))))
  = [PStr "a"; PStr "b"] /\
  List.length
    (execution_results
       (fst (execute_workflow demo_runtime
               (session_of [element_with "a" "pdf_upload" [] pending;
                            element_with "b" "conditional" [] ready]))))
  = 2%nat /\
  (string_types [element_with "a" "pdf_upload" [] pending;
                 element_with "b" "conditional" [] ready] ->
   snd (execute_workflow demo_runtime
          (session_of [element_with "a" "pdf_upload" [] pending;
                       element_with "b" "conditional" [] ready]))
   = Completed
       (execution_results
          (fst (execute_workflow demo_runtime
                  (session_of [element_with "a" "pdf_upload" [] pending;
                               element_with "b" "conditional" [] ready]))))).
Proof.
  apply (run_covers_every_element demo_runtime
           (session_of [element_with "a" "pdf_upload" [] pending;
                        element_with "b" "conditional" [] ready]));
    reflexivity.
Defined.


(** C1 as stated fails on a document without elements: after one element is
    added, the workflow run and the element deleted, a second run stores no
    empty mapping; the entry of the first run is still there. *)
Lemma run_on_empty_document_keeps_results :
  ~ exists rt : runtime,
      List.length (execution_results (fst (execute_workflow rt (emptied_after_run rt))))
      = List.length (workflow_elements (emptied_after_run rt)).
Proof.
  intros [rt H]. vm_compute in H. discriminate.
Qed.

(** The same run, spelled out: nothing is executed and the session is
    untouched. *)
Example run_on_empty_document (rt : runtime) :
  workflow_elements (emptied_after_run rt) = [] /\
  execution_results (emptied_after_run rt)
  = [(PStr (uuid4 rt 0), PStr "timer executed successfully")] /\
  execute_workflow rt (emptied_after_run rt) = (emptied_after_run rt, NothingToExecute).
Proof. repeat split. Qed.

(** Two elements with one id share an entry: the ids must differ for the
    count to come out. *)
Example run_with_repeated_id (rt : runtime) :
  snd (execute_workflow rt
         (session_of [element_with "a" "timer" [] pending;
                      element_with "a" "loop" [] pending]))
  = Completed [(PStr "a", PStr "loop executed successfully")].
Proof. reflexivity. Qed.

(** An element whose type is no string, as an import can leave it, is run
    like any other, and its result is stored; it is the report after the
    store that raises, for want of a display name. *)
Example run_with_a_type_that_is_no_string (rt : runtime) :
  execute_workflow rt
    (session_of [{| id := PStr "a"; type := PInt 7; position := xy 0 0;
                    config := PDict []; status := pending; output := PNone |}])
  = (with_results
       (session_of [{| id := PStr "a"; type := PInt 7; position := xy 0 0;
                       config := PDict []; status := ready; output := PNone |}])
       [(PStr "a", PStr (py_repr rt (PInt 7) ++ " executed successfully"))],
     RunRaised (AttributeError (PInt 7) "title")).
Proof. reflexivity. Qed.

Lemma run_and_store_frame (rt : runtime) (s : session_state) :
  map frame (workflow_elements (fst (run_and_store rt s)))
  = map frame (workflow_elements s).
Proof.
  unfold run_and_store.
  destruct (workflow_elements s) as [| e rest] eqn:E.
  - simpl. now rewrite E.
  - pose proof (run_elements_frame rt (e :: rest) []) as Hf.
    destruct (run_elements rt [] (e :: rest)) as [els [ex | res]];
      simpl in *; exact Hf.
Qed.

Lemma execute_workflow_frame (rt : runtime) (s : session_state) :
  map frame (workflow_elements (fst (execute_workflow rt s)))
  = map frame (workflow_elements s).
Proof.
  rewrite execute_workflow_fst. apply run_and_store_frame.
Qed.


(** C10.  A run changes no field of an element but its status: id, type,
    position, config and output of every element are as before, element by
    element, so the elements are as many and in the same order; this holds
    also when the run is cut short. *)
Theorem run_changes_status_only (rt : runtime) (s : session_state) :
  map frame (workflow_elements (fst (execute_workflow rt s)))
  = map frame (workflow_elements s) /\
  List.length (workflow_elements (fst (execute_workflow rt s)))
  = List.length (workflow_elements s).
Proof.
  pose proof (execute_workflow_frame rt s) as H.
  split; [exact H |].
  rewrite <- (length_map frame), H. apply length_map.
Qed.

(** What a run leaves for the element at position [i] of a document whose
    ids are pairwise-distinct keys: its verdict. *)
Lemma run_verdict (rt : runtime) (s : session_state) (i : nat) (e : WorkflowElement) :
  hashable_ids (workflow_elements s) ->
  distinct_ids (workflow_elements s) ->
  nth_error (workflow_elements s) i = Some e ->
  results_get (id e) (execution_results (fst (execute_workflow rt s)))
  = Some (snd (verdict rt e)) /\
  nth_error (workflow_elements (fst (execute_workflow rt s))) i
  = Some (set_status e (fst (verdict rt e))).
Proof.
  intros Hs Hu Hi.
  rewrite execute_workflow_stored; auto.
  - cbn [execution_results workflow_elements]. split.
    + rewrite record_listed by exact Hu.
      apply (results_get_listed (fun x => snd (verdict rt x))); auto.
      eapply nth_error_In; eauto.
    + change (set_status e (fst (verdict rt e))) with (settle rt e).
      now apply map_nth_error.
  - intros E. rewrite E in Hi. destruct i; discriminate.
Qed.


(** C3, as amended.  In a document whose ids can be keys of a dict and are
    pairwise distinct as keys, a conditional element whose config is a dict
    that holds a [true_action] ends a run with result "Executed:
    <true_action>" stored under its id and with status ready, whatever else
    the config holds: [condition_type], [condition_value] and
    [false_action] are never read. *)
Theorem conditional_takes_true_action
  (rt : runtime) (s : session_state) (i : nat) (e : WorkflowElement)
  (d : pydict) (action : pyval) :
  hashable_ids (workflow_elements s) ->
  distinct_ids (workflow_elements s) ->
  nth_error (workflow_elements s) i = Some e ->
  type e = PStr "conditional" ->
  config e = PDict d ->
  lookup "true_action" d = Some action ->
  results_get (id e) (execution_results (fst (execute_workflow rt s)))
  = Some (PStr ("Executed: " ++ py_str rt action)) /\
  nth_error (workflow_elements (fst (execute_workflow rt s))) i
  = Some (set_status e ready).
Proof.
  intros Hs Hu Hi Ht Hc Ha.
  destruct (run_verdict rt s i e Hs Hu Hi) as (Hg & Hn).
  assert (Hv : verdict rt e = (ready, PStr ("Executed: " ++ py_str rt action))).
  { unfold verdict, element_result. rewrite Ht, Hc. simpl. now rewrite Ha. }
  rewrite Hv in *. auto.
Qed.

Lemma conditional_takes_true_action_witness :
  results_get (PStr "c")
    (execution_results
       (fst (execute_workflow demo_runtime
               (session_of [element_with "c" "conditional" demo_condition pending]))))
  = Some (PStr "Executed: X") /\
  nth_error
    (workflow_elements
       (fst (execute_workflow demo_runtime
               (session_of [element_with "c" "conditional" demo_condition pending]))))
    0
  = Some (element_with "c" "conditional" demo_condition ready).
Proof.
  apply (conditional_takes_true_action demo_runtime
           (session_of [element_with "c" "conditional" demo_condition pending])
           0 (element_with "c" "conditional" demo_condition pending)
           demo_condition (PStr "X")); reflexivity.
Defined.


(** C3 as stated fails for a config without [true_action]: a conditional
    element just added has an empty config, and a run leaves it in status
    error, not ready. *)
Lemma conditional_without_true_action :
  ~ exists rt : runtime,
      map status
        (workflow_elements
           (fst (execute_workflow rt
                   (add_element_to_workflow rt "conditional" initial_state))))
      = [ready].
Proof.
  intros [rt H]. vm_compute in H. discriminate.
Qed.

(** The same run, spelled out. *)
Example conditional_just_added (rt : runtime) :
  execute_workflow rt (add_element_to_workflow rt "conditional" initial_state)
  = ({| workflow_elements :=
          [{| id := PStr (uuid4 rt 0); type := PStr "conditional";
              position := xy 0 50; config := PDict []; status := error;
              output := PNone |}];
        workflow_data := [];
        execution_results := [(PStr (uuid4 rt 0), PStr "Error: 'true_action'")];
        uuids_drawn := 1 |},
     Completed [(PStr (uuid4 rt 0), PStr "Error: 'true_action'")]).
Proof.
  unfold execute_workflow. cbn. now rewrite String.eqb_refl.
Qed.

(** C6, as amended.  In a document whose ids can be keys of a dict and are
    pairwise distinct as keys, a pdf_upload element whose config is a dict
    without a filename ends a run with status error and result "No PDF
    uploaded" stored under its id; one whose config is a dict with a
    filename ends it with status ready and result "PDF processed:
    <filename>". *)
Theorem pdf_upload_result
  (rt : runtime) (s : session_state) (i : nat) (e : WorkflowElement) (d : pydict) :
  hashable_ids (workflow_elements s) ->
  distinct_ids (workflow_elements s) ->
  nth_error (workflow_elements s) i = Some e ->
  type e = PStr "pdf_upload" ->
  config e = PDict d ->
  match lookup "filename" d with
  | None =>
      results_get (id e) (execution_results (fst (execute_workflow rt s)))
      = Some (PStr "No PDF uploaded") /\
      nth_error (workflow_elements (fst (execute_workflow rt s))) i
      = Some (set_status e error)
  | Some filename =>
      results_get (id e) (execution_results (fst (execute_workflow rt s)))
      = Some (PStr ("PDF processed: " ++ py_str rt filename)) /\
      nth_error (workflow_elements (fst (execute_workflow rt s))) i
      = Some (set_status e ready)
  end.
Proof.
  intros Hs Hu Hi Ht Hc.
  destruct (run_verdict rt s i e Hs Hu Hi) as (Hg & Hn).
  unfold verdict, element_result in Hg, Hn. rewrite Ht, Hc in Hg, Hn.
  simpl in Hg, Hn.
  destruct (lookup "filename" d) as [filename |]; simpl in *; auto.
Qed.

Lemma pdf_upload_result_witness :
  (results_get (PStr "p")
     (execution_results
        (fst (execute_workflow demo_runtime
                (session_of [element_with "p" "pdf_upload" [] pending]))))
   = Some (PStr "No PDF uploaded") /\
   nth_error
     (workflow_elements
        (fst (execute_workflow demo_runtime
                (session_of [element_with "p" "pdf_upload" [] pending])))) 0
   = Some (element_with "p" "pdf_upload" [] error)) /\
  (results_get (PStr "p")
     (execution_results
        (fst (execute_workflow demo_runtime
                (session_of [element_with "p" "pdf_upload" demo_upload pending]))))
   = Some (PStr "PDF processed: a.pdf") /\
   nth_error
     (workflow_elements
        (fst (execute_workflow demo_runtime
                (session_of [element_with "p" "pdf_upload" demo_upload pending]))))
     0
   = Some (element_with "p" "pdf_upload" demo_upload ready)).
Proof.
  split.
  - apply (pdf_upload_result demo_runtime
             (session_of [element_with "p" "pdf_upload" [] pending])
             0 (element_with "p" "pdf_upload" [] pending) []);
      reflexivity.
  - apply (pdf_upload_result demo_runtime
             (session_of [element_with "p" "pdf_upload" demo_upload pending])
             0 (element_with "p" "pdf_upload" demo_upload pending) demo_upload);
      reflexivity.
Defined.

(** C6 as stated fails for a config that is no dict.  A document whose
    pdf_upload element declares [config: null] imports as it is; the config
    holds no filename, yet ['filename' in element.config] raises, and the
    result of the run is the text of that exception, not "No PDF
    uploaded". *)
Lemma pdf_upload_with_null_config :
  ~ exists rt : runtime,
      results_get (PStr "p")
        (execution_results
           (fst (execute_workflow rt
                   (fst (import_workflow rt
                           (Some (PDict [("elements",
                                          PList [PDict [("id", PStr "p");
                                                        ("type", PStr "pdf_upload");
                                                        ("config", PNone)]])]))
                           initial_state)))))
      = Some (PStr "No PDF uploaded").
Proof.
  intros [rt H]. vm_compute in H. discriminate.
Qed.

(** The same run, spelled out: the element ends in status error, and the
    result is what the handler of the loop stores. *)
Example pdf_upload_null_config_run (rt : runtime) :
  fst (execute_workflow rt
         (session_of [{| id := PStr "p"; type := PStr "pdf_upload";
                         position := xy 0 0; config := PNone;
                         status := pending; output := PNone |}]))
  = {| workflow_elements :=
         [{| id := PStr "p"; type := PStr "pdf_upload";
             position := xy 0 0; config := PNone;
             status := error; output := PNone |}];
       workflow_data := [];
       execution_results :=
         [(PStr "p",
           PStr ("Error: " ++ exn_text rt (TypeError (NotContainer PNone))))];
       uuids_drawn := 0 |}.
Proof. reflexivity. Qed.

(** Two elements with one id share an entry, which holds the result of the
    later one: the ids must differ for the result of the pdf_upload element
    to be found under its id. *)
Example pdf_upload_with_repeated_id (rt : runtime) :
  execution_results
    (fst (execute_workflow rt
            (session_of [element_with "p" "pdf_upload" [] pending;
                         element_with "p" "timer" [] pending])))
  = [(PStr "p", PStr "timer executed successfully")].
Proof. reflexivity. Qed.


(** ** Export and import *)

Section Importing.

Variable rt : runtime.

Lemma load_element_to_dict (e : WorkflowElement) (drawn : nat) :
  truthy (id e) = true ->
  load_element rt (to_dict e) drawn = ret (e, drawn).
Proof.
  intros H. destruct e as [i t p c st o]. simpl in H.
  unfold load_element, to_dict, new_element. simpl. rewrite H. reflexivity.
Qed.

Lemma load_elements_to_dict (els : list WorkflowElement) :
  forall acc drawn,
    Forall (fun e => truthy (id e) = true) els ->
    load_elements rt (map to_dict els) acc drawn = ((acc ++ els)%list, drawn, None).
Proof.
  induction els as [| e rest IH]; intros acc drawn H; simpl.
  - now rewrite app_nil_r.
  - inversion H as [| ? ? He Hrest]; subst.
    rewrite load_element_to_dict by assumption. simpl.
    rewrite IH by assumption. now rewrite <- app_assoc.
Qed.

(** An element whose dict lacks [type] or [id] does not load. *)
Lemma load_element_missing_field (ed : pydict) (drawn : nat) :
  lookup "id" ed = None \/ lookup "type" ed = None ->
  load_element rt (PDict ed) drawn = raise (KeyError "type") \/
  load_element rt (PDict ed) drawn = raise (KeyError "id").
Proof.
  intros H. unfold load_element. simpl.
  destruct (lookup "type" ed) as [t |]; simpl; [| now left].
  destruct H as [H | H]; [| discriminate].
  rewrite H. simpl. now right.
Qed.

End Importing.

Lemma import_of_export
  (rt : runtime) (now : string) (s s0 : session_state) :
  Forall (fun e => truthy (id e) = true) (workflow_elements s) ->
  import_workflow rt (Some (export_workflow now s)) s0
  = ({| workflow_elements := workflow_elements s;
        workflow_data := workflow_data s0;
        execution_results := execution_results s0;
        uuids_drawn := uuids_drawn s0 |},
     Imported (List.length (workflow_elements s))).
Proof.
  intros H. unfold import_workflow, export_workflow. simpl.
  rewrite load_elements_to_dict by assumption. reflexivity.
Qed.

(** C2.  Export followed by import gives back the elements of the document,
    field for field (id, type, position, config, status, and output too), as
    many and in the same order.  The ids are truthy, as they are for every
    element [WorkflowElement.__init__] has built; the session imported into
    may be any. *)
Theorem export_import_roundtrip
  (rt : runtime) (now : string) (s s0 : session_state) :
  Forall (fun e => truthy (id e) = true) (workflow_elements s) ->
  import_workflow rt (Some (export_workflow now s)) s0
  = ({| workflow_elements := workflow_elements s;
        workflow_data := workflow_data s0;
        execution_results := execution_results s0;
        uuids_drawn := uuids_drawn s0 |},
     Imported (List.length (workflow_elements s))).
Proof. apply import_of_export. Qed.

Lemma export_import_roundtrip_witness :
  import_workflow demo_runtime
    (Some (export_workflow "2024-01-01T00:00:00"
             (session_of [element_with "p" "pdf_upload" demo_upload ready;
                          element_with "c" "conditional" demo_condition error])))
    initial_state
  = (session_of [element_with "p" "pdf_upload" demo_upload ready;
                 element_with "c" "conditional" demo_condition error],
     Imported 2).
Proof.
  apply (export_import_roundtrip demo_runtime "2024-01-01T00:00:00"
           (session_of [element_with "p" "pdf_upload" demo_upload ready;
                        element_with "c" "conditional" demo_condition error])
           initial_state).
  repeat constructor.
Defined.

(** ** Removing an element *)

(** C4, as amended.  An index [i] with [i < -N] or [N <= i], for [N] the
    number of elements, makes the removal fail and leaves the session as it
    was; the failure is [IndexError] for an index that fits a signed 64-bit
    integer and [OverflowError] for one that does not. *)
Theorem delete_out_of_range (s : session_state) (index : Z) :
  index < - Z.of_nat (List.length (workflow_elements s)) \/
  Z.of_nat (List.length (workflow_elements s)) <= index ->
  delete_element index s
  = (s, Some (if fits_ssize_t index then IndexError else OverflowError)).
Proof.
  intros H. unfold delete_element, list_pop. cbv zeta.
  set (n := Z.of_nat (List.length (workflow_elements s))) in *.
  assert (Hn : 0 <= n) by (subst n; lia).
  destruct (index <? 0) eqn:E1.
  - apply Z.ltb_lt in E1.
    assert (E2 : (index + n <? 0) = true) by (apply Z.ltb_lt; lia).
    rewrite E2. cbn [orb]. now destruct (fits_ssize_t index).
  - assert (E2 : (n <=? index) = true)
      by (apply Z.ltb_ge in E1; apply Z.leb_le; lia).
    cbv iota. rewrite E1, E2. cbn [orb]. now destruct (fits_ssize_t index).
Qed.

Lemma delete_out_of_range_witness :
  delete_element 1 (session_of [element_with "a" "timer" [] pending])
  = (session_of [element_with "a" "timer" [] pending], Some IndexError).
Proof.
  apply (delete_out_of_range (session_of [element_with "a" "timer" [] pending]) 1).
  right. simpl. lia.
Defined.

(** Beyond the machine integers the failure is another one. *)
Example delete_beyond_ssize_t :
  delete_element (2 ^ 63) (session_of [element_with "a" "timer" [] pending])
  = (session_of [element_with "a" "timer" [] pending], Some OverflowError) /\
  delete_element (- 2 ^ 63 - 1) (session_of [element_with "a" "timer" [] pending])
  = (session_of [element_with "a" "timer" [] pending], Some OverflowError) /\
  delete_element (2 ^ 63 - 1) (session_of [element_with "a" "timer" [] pending])
  = (session_of [element_with "a" "timer" [] pending], Some IndexError) /\
  delete_element (- 2 ^ 63) (session_of [element_with "a" "timer" [] pending])
  = (session_of [element_with "a" "timer" [] pending], Some IndexError).
Proof. repeat split. Qed.


(** C4 as stated fails at a negative index: -1 is the position of no element
    of a one-element document (its only position is 0), yet [pop(-1)]
    removes the last element instead of failing. *)
Lemma delete_at_minus_one :
  delete_element (-1) (session_of [element_with "a" "timer" [] pending])
  <> (session_of [element_with "a" "timer" [] pending], Some IndexError)
  /\ workflow_elements
       (fst (delete_element (-1) (session_of [element_with "a" "timer" [] pending])))
     = [].
Proof. split; [discriminate | reflexivity]. Qed.

(** An index from [0] to [N-1] removes the element at that position; the
    others keep their order and their ids. *)
Lemma delete_in_range (s : session_state) (i : nat) :
  (i < List.length (workflow_elements s))%nat ->
  delete_element (Z.of_nat i) s
  = ({| workflow_elements := remove_nth i (workflow_elements s);
        workflow_data := workflow_data s;
        execution_results := execution_results s;
        uuids_drawn := uuids_drawn s |}, None).
Proof.
  intros H. unfold delete_element, list_pop. cbv zeta.
  assert (E1 : (Z.of_nat i <? 0) = false) by (apply Z.ltb_ge; lia).
  assert (E2 : (Z.of_nat (List.length (workflow_elements s)) <=? Z.of_nat i) = false)
    by (apply Z.leb_gt; lia).
  rewrite E1. cbv iota. rewrite E1, E2. simpl. rewrite Nat2Z.id.
  destruct (nth_error (workflow_elements s) i) eqn:E; [reflexivity |].
  apply nth_error_None in E. lia.
Qed.

(** ** Configuration updates *)

Ltac split_render H :=
  repeat match type of H with
    | context [if ?c then _ else _] => destruct c
    | context [match uploaded_file ?w with _ => _ end] =>
        destruct (uploaded_file w) as [[? ?] |]
    | context [match type ?e with _ => _ end] =>
        destruct (type e) eqn:?; try discriminate
    end.

Lemma config_assign_inv (e e' : WorkflowElement) (k : string) (v : pyval) :
  config_assign e k v = ret e' ->
  exists d, config e = PDict d /\ e' = set_config e (PDict (assign d k v)).
Proof.
  unfold config_assign, ret.
  destruct (config e) eqn:E; try discriminate.
  intros H. inversion H. eauto.
Qed.

(** A config update keeps id, type, position and output, and leaves the
    status as it was or sets it to ready or pending. *)
Lemma render_element_config_inv (e e' : WorkflowElement) (w : widgets) :
  render_element_config e w = ret e' ->
  id e' = id e /\ type e' = type e /\ position e' = position e /\
  output e' = output e /\
  (status e' = status e \/ status e' = ready \/ status e' = pending).
Proof.
  unfold render_element_config. intros H.
  destruct (str_eq (type e) "pdf_upload").
  { destruct (uploaded_file w) as [[name size] |].
    - destruct (config_assign e "filename" (PStr name)) as [ex | e1] eqn:E1;
        [discriminate |].
      apply config_assign_inv in E1. destruct E1 as (d1 & Hc1 & ->).
      simpl in H. inversion H. subst e'. simpl. tauto.
    - inversion H. subst e'. tauto. }
  split_render H; inversion H; subst e'; simpl; tauto.
Qed.

(** C7, what the code does.  The text_input branch of
    [render_element_config] replaces the config and sets the status to ready
    when the text is not empty; when it is empty the status is left as it
    was, so an element that was ready stays ready.  The branches for
    conditional, api_call and email set the status back to pending. *)
Theorem text_input_update (e : WorkflowElement) (w : widgets) :
  type e = PStr "text_input" ->
  render_element_config e w
  = ret (set_status
           (set_config e (PDict [("label", PStr (label w)); ("value", PStr (text w))]))
           (if truthy (PStr (text w)) then ready else status e)).
Proof.
  intros Ht. unfold render_element_config. rewrite Ht. simpl.
  destruct (text w =? "")%string; reflexivity.
Qed.

Lemma text_input_update_witness :
  render_element_config
    (element_with "t" "text_input"
       [("label", PStr "Enter text"); ("value", PStr "hello")] ready)
    (form_with_text "")
  = ret (element_with "t" "text_input"
           [("label", PStr "Enter text"); ("value", PStr "")] ready).
Proof.
  apply (text_input_update
           (element_with "t" "text_input"
              [("label", PStr "Enter text"); ("value", PStr "hello")] ready)
           (form_with_text "")).
  reflexivity.
Defined.

(** A text_input element is added, "hello" is typed, and the text is cleared
    again: the element is still ready, with an empty value in its config. *)
Example text_input_cleared (rt : runtime) :
  workflow_elements
    (fst (update_config 0 (form_with_text "")
            (fst (update_config 0 (form_with_text "hello")
                    (add_element_to_workflow rt "text_input" initial_state)))))
  = [{| id := PStr (uuid4 rt 0); type := PStr "text_input";
        position := xy 0 50;
        config := PDict [("label", PStr "Enter text"); ("value", PStr "")];
        status := ready; output := PNone |}].
Proof. reflexivity. Qed.

(** The conditional branch, for comparison, sets the status back to
    pending when the condition value is empty. *)
Example conditional_update_reverts (e : WorkflowElement) (w : widgets) :
  type e = PStr "conditional" ->
  condition_value w = EmptyString ->
  exists e', render_element_config e w = ret e' /\ status e' = pending.
Proof.
  intros Ht Hv. unfold render_element_config. rewrite Ht, Hv. simpl.
  eexists. split; reflexivity.
Qed.

(** ** The status of an element *)

Section Statuses.

Variable rt : runtime.

Lemma valid_pending : valid_status pending.
Proof. unfold valid_status. auto. Qed.

Lemma valid_ready : valid_status ready.
Proof. unfold valid_status. auto. Qed.

Lemma valid_error : valid_status error.
Proof. unfold valid_status. auto. Qed.

#[local] Hint Resolve valid_pending valid_ready valid_error : core.

Lemma Forall_remove_nth {A} (P : A -> Prop) (l : list A) :
  forall n, Forall P l -> Forall P (remove_nth n l).
Proof.
  induction l as [| x r IH]; intros n H; [destruct n; auto |].
  inversion H; subst. destruct n; simpl; auto.
Qed.

Lemma Forall_replace_nth {A} (P : A -> Prop) (x : A) (l : list A) :
  forall n, P x -> Forall P l -> Forall P (replace_nth n x l).
Proof.
  induction l as [| y r IH]; intros n Hx H; [destruct n; auto |].
  inversion H; subst. destruct n; simpl; auto.
Qed.

Lemma delete_element_Forall (P : WorkflowElement -> Prop) (i : Z) (s : session_state) :
  Forall P (workflow_elements s) ->
  Forall P (workflow_elements (fst (delete_element i s))).
Proof.
  intros H. unfold delete_element, list_pop. cbv zeta.
  destruct (_ || _); [destruct (fits_ssize_t i); simpl; auto |].
  destruct (nth_error _ _); simpl; auto using Forall_remove_nth.
Qed.

Lemma update_config_Forall (P : WorkflowElement -> Prop) (i : nat) (w : widgets)
  (s : session_state) :
  (forall e e', P e -> render_element_config e w = ret e' -> P e') ->
  Forall P (workflow_elements s) ->
  Forall P (workflow_elements (fst (update_config i w s))).
Proof.
  intros Hstep H. unfold update_config.
  destruct (nth_error (workflow_elements s) i) as [e |] eqn:E; simpl; auto.
  destruct (render_element_config e w) as [ex | e'] eqn:R; simpl; auto.
  apply Forall_replace_nth; auto.
  apply (Hstep e); auto.
  rewrite Forall_forall in H. apply H. eapply nth_error_In; eauto.
Qed.

(** The [try] leaves an element ready or in error. *)
Lemma element_result_status (e : WorkflowElement) (v st : pyval) :
  element_result rt e = ret (v, st) -> st = ready \/ st = error.
Proof.
  unfold element_result, ret, bind. intros H.
  repeat match type of H with
    | context [if ?c then _ else _] => destruct c
    | context [match ?c with inl _ => _ | inr _ => _ end] => destruct c
    end;
    inversion H; auto.
Qed.

Lemma process_element_status (res : results) (e : WorkflowElement) :
  status (fst (process_element rt res e)) = ready \/
  status (fst (process_element rt res e)) = error.
Proof.
  unfold process_element. cbv zeta. rewrite try_element_result.
  change (element_result rt (set_status e processing)) with (element_result rt e).
  destruct (element_result rt e) as [ex | [v st]] eqn:E; simpl; auto.
  apply element_result_status in E.
  destruct (store res (id e) v); simpl; auto.
Qed.

Lemma run_elements_valid (els : list WorkflowElement) :
  forall res,
    Forall (fun e => valid_status (status e)) els ->
    Forall (fun e => valid_status (status e)) (fst (run_elements rt res els)).
Proof.
  induction els as [| e rest IH]; intros res H; simpl; auto.
  inversion H as [| ? ? He Hrest]; subst.
  pose proof (process_element_status res e) as Hp.
  destruct (process_element rt res e) as [e' [ex | res']]; simpl in *.
  - constructor; auto. destruct Hp as [-> | ->]; auto.
  - specialize (IH res' Hrest).
    destruct (run_elements rt res' rest) as [rest' r]; simpl in *.
    constructor; auto. destruct Hp as [-> | ->]; auto.
Qed.

(** What the loop of [import_workflow] appends satisfies [P] when every
    element that loads from an item satisfying [Q] does. *)
Lemma load_elements_Forall (P : WorkflowElement -> Prop) (Q : pyval -> Prop) :
  (forall d n e n', Q d -> load_element rt d n = ret (e, n') -> P e) ->
  forall items acc n,
    Forall Q items -> Forall P acc ->
    Forall P (fst (fst (load_elements rt items acc n))).
Proof.
  intros Hstep. induction items as [| d rest IH]; intros acc n HQ HP; simpl; auto.
  inversion HQ as [| ? ? Hd Hrest]; subst.
  destruct (load_element rt d n) as [ex | [e n']] eqn:E; simpl; auto.
  apply IH; auto.
  apply Forall_app. split; auto. constructor; auto. eapply Hstep; eauto.
Qed.

(** The elements an import leaves. *)
Lemma import_workflow_elements (doc : pyval) (s : session_state) :
  workflow_elements (fst (import_workflow rt (Some doc) s))
  = match (v <- py_get doc "elements" (PList []) ;; py_iter v) with
    | inl _ => []
    | inr items => fst (fst (load_elements rt items [] (uuids_drawn s)))
    end.
Proof.
  unfold import_workflow.
  destruct (v <- py_get doc "elements" (PList []) ;; py_iter v) as [ex | items];
    [reflexivity |].
  destruct (load_elements rt items [] (uuids_drawn s)) as [[els drawn] [ex |]];
    reflexivity.
Qed.

Lemma import_workflow_Forall (P : WorkflowElement -> Prop) (Q : pyval -> Prop)
  (uploaded : option pyval) (s : session_state) :
  (forall d n e n', Q d -> load_element rt d n = ret (e, n') -> P e) ->
  (forall k, Q (PStr k)) ->
  (forall doc d es,
      uploaded = Some doc -> doc = PDict d ->
      lookup "elements" d = Some (PList es) -> Forall Q es) ->
  Forall P (workflow_elements s) ->
  Forall P (workflow_elements (fst (import_workflow rt uploaded s))).
Proof.
  intros Hstep Hstr Hdoc H.
  destruct uploaded as [doc |]; [| exact H].
  rewrite import_workflow_elements.
  destruct (v <- py_get doc "elements" (PList []) ;; py_iter v)
    as [ex | items] eqn:E; [constructor |].
  apply (load_elements_Forall P Q); auto.
  destruct doc as [| b | z | f | k | l | d]; try discriminate.
  simpl in E.
  destruct (lookup "elements" d) as [v |] eqn:El; simpl in E.
  - destruct v as [| b | z | f | k | l | d']; simpl in E; try discriminate;
      inversion E; subst items.
    + apply Forall_forall. intros x Hx.
      apply in_map_iff in Hx. destruct Hx as (c & <- & _). apply Hstr.
    + eapply Hdoc; eauto.
    + apply Forall_forall. intros x Hx.
      apply in_map_iff in Hx. destruct Hx as (kv & <- & _). apply Hstr.
  - inversion E. constructor.
Qed.

(** What loads from a dict that holds [type] and [id]. *)
Lemma load_element_dict (ed : pydict) (n : nat) (t i : pyval) :
  lookup "type" ed = Some t ->
  lookup "id" ed = Some i ->
  load_element rt (PDict ed) n
  = ret ({| id := if truthy i then i else PStr (uuid4 rt n);
            type := t;
            position := match lookup "position" ed with
                        | Some p => p
                        | None => xy 0 0
                        end;
            config := match lookup "config" ed with
                      | Some c => c
                      | None => PDict []
                      end;
            status := match lookup "status" ed with
                      | Some st => st
                      | None => pending
                      end;
            output := match lookup "output" ed with
                      | Some o => o
                      | None => PNone
                      end |},
         if truthy i then n else S n).
Proof.
  intros Ht Hi. unfold load_element, new_element. simpl.
  rewrite Ht, Hi. simpl.
  destruct (truthy i), (lookup "position" ed), (lookup "config" ed),
    (lookup "status" ed), (lookup "output" ed); reflexivity.
Qed.

Lemma load_element_inv (d : pyval) (n n' : nat) (e : WorkflowElement) :
  load_element rt d n = ret (e, n') ->
  exists ed t i,
    d = PDict ed /\ lookup "type" ed = Some t /\ lookup "id" ed = Some i.
Proof.
  unfold load_element. intros H.
  destruct d as [| b | z | f | k | l | ed]; try discriminate.
  simpl in H.
  destruct (lookup "type" ed) as [t |] eqn:Et; simpl in H; [| discriminate].
  destruct (lookup "id" ed) as [i |] eqn:Ei; simpl in H; [| discriminate].
  exists ed, t, i. auto.
Qed.

Lemma load_element_status (d : pyval) (n n' : nat) (e : WorkflowElement) :
  declares_valid_status d ->
  load_element rt d n = ret (e, n') ->
  valid_status (status e).
Proof.
  intros Hd H.
  destruct (load_element_inv _ _ _ _ H) as (ed & t & i & -> & Ht & Hi).
  rewrite (load_element_dict ed n t i Ht Hi) in H.
  inversion H; subst; simpl.
  destruct (lookup "status" ed) as [st |] eqn:Es; auto.
  eapply Hd; eauto.
Qed.

Lemma load_element_id_truthy (d : pyval) (n n' : nat) (e : WorkflowElement) :
  (forall k, uuid4 rt k <> EmptyString) ->
  load_element rt d n = ret (e, n') ->
  truthy (id e) = true.
Proof.
  intros Hu H.
  destruct (load_element_inv _ _ _ _ H) as (ed & t & i & -> & Ht & Hi).
  rewrite (load_element_dict ed n t i Ht Hi) in H.
  inversion H; subst; simpl.
  destruct (truthy i) eqn:E; auto.
  simpl. destruct (String.eqb_spec (uuid4 rt n) ""); auto.
  exfalso. eapply Hu; eauto.
Qed.

End Statuses.

(** C5, as amended.  In a session whose statuses are among pending, ready,
    processing and error, they stay so under every operation but the import:
    adding and removing an element, a config update, a run, clearing.
    [import_workflow] stores the status the document gives, unchecked: the
    statuses stay valid when every element of the imported document declares
    a valid status or none. *)
Theorem operations_keep_statuses_valid (rt : runtime) (s : session_state) :
  statuses_valid s ->
  (forall t, statuses_valid (add_element_to_workflow rt t s)) /\
  (forall i, statuses_valid (fst (delete_element i s))) /\
  (forall i w, statuses_valid (fst (update_config i w s))) /\
  statuses_valid (fst (execute_workflow rt s)) /\
  statuses_valid (clear_workflow s) /\
  (forall uploaded,
      (forall doc, uploaded = Some doc -> document_statuses_valid doc) ->
      statuses_valid (fst (import_workflow rt uploaded s))).
Proof.
  unfold statuses_valid. intros H. repeat split.
  - intros t. unfold add_element_to_workflow. simpl.
    apply Forall_app. split; auto.
    constructor; auto. simpl. apply valid_pending.
  - intros i. now apply delete_element_Forall.
  - intros i w. apply update_config_Forall; auto.
    intros e e' He Hr. apply render_element_config_inv in Hr.
    destruct Hr as (_ & _ & _ & _ & [-> | [-> | ->]]);
      auto using valid_ready, valid_pending.
  - rewrite execute_workflow_fst. unfold run_and_store.
    destruct (workflow_elements s) as [| e rest] eqn:E.
    + simpl. rewrite E. constructor.
    + pose proof (run_elements_valid rt (e :: rest) [] H) as Hv.
      destruct (run_elements rt [] (e :: rest)) as [els [ex | res]];
        simpl in *; exact Hv.
  - simpl. constructor.
  - intros uploaded Hdoc.
    apply (import_workflow_Forall rt _ declares_valid_status); auto.
    + intros d n e n' Hd Hl. eapply load_element_status; eauto.
    + intros k ed v Hk. discriminate.
    + intros doc d es Hu Hd He. eapply Hdoc; eauto.
Qed.

Lemma operations_keep_statuses_valid_witness :
  statuses_valid
    (fst (execute_workflow demo_runtime
            (session_of [element_with "c" "conditional" [] pending;
                         element_with "t" "timer" [] processing]))).
Proof.
  destruct (operations_keep_statuses_valid demo_runtime
              (session_of [element_with "c" "conditional" [] pending;
                           element_with "t" "timer" [] processing]))
    as (_ & _ & _ & H & _).
  - unfold statuses_valid, valid_status. simpl.
    repeat (apply Forall_cons || apply Forall_nil); simpl; auto.
  - exact H.
Defined.

(** C5 as stated fails for [import_workflow]: an imported element that
    declares the status "done" keeps it. *)
Lemma import_keeps_any_status :
  ~ exists rt : runtime,
      statuses_valid
        (fst (import_workflow rt (Some document_with_odd_status) initial_state)).
Proof.
  intros [rt H]. unfold statuses_valid in H. simpl in H.
  inversion H as [| e l Hv Hl]; subst.
  destruct Hv as [Hv | [Hv | [Hv | Hv]]]; discriminate.
Qed.

(** The same import, spelled out. *)
Example import_of_odd_status (rt : runtime) :
  import_workflow rt (Some document_with_odd_status) initial_state
  = (session_of [element_with "a" "timer" [] (PStr "done")], Imported 1).
Proof. reflexivity. Qed.

(** A run brings every status back among the four, whatever it was. *)
Lemma run_makes_statuses_valid (rt : runtime) (s : session_state) :
  workflow_elements s <> [] ->
  string_ids (workflow_elements s) ->
  statuses_valid (fst (execute_workflow rt s)).
Proof.
  intros Hne Hs.
  rewrite execute_workflow_stored by (assumption || now apply string_ids_hashable).
  unfold statuses_valid. simpl.
  apply Forall_forall. intros e' He'.
  apply in_map_iff in He'. destruct He' as (e & <- & _).
  unfold settle, verdict. simpl.
  destruct (element_result rt e) as [ex | [v st]] eqn:E; simpl.
  - apply valid_error.
  - apply element_result_status in E.
    destruct E as [-> | ->]; auto using valid_ready, valid_error.
Qed.

(** ** The ids of the elements *)

(** Every element the program holds has a truthy id, provided [uuid4] never
    yields the empty string (it yields 36 characters). *)
Lemma reachable_ids_truthy (rt : runtime) (s : session_state) :
  (forall k, uuid4 rt k <> EmptyString) ->
  reachable rt s ->
  Forall (fun e => truthy (id e) = true) (workflow_elements s).
Proof.
  intros Hu Hr.
  induction Hr as [| t s Hr IH | i s Hr IH | i w s Hr IH | s Hr IH | s Hr IH
                   | uploaded s Hr IH].
  - constructor.
  - unfold add_element_to_workflow. simpl.
    apply Forall_app. split; auto. constructor; auto. simpl.
    destruct (String.eqb_spec (uuid4 rt (uuids_drawn s)) ""); auto.
    exfalso. eapply Hu; eauto.
  - now apply delete_element_Forall.
  - apply update_config_Forall; auto.
    intros e e' He Hc. apply render_element_config_inv in Hc.
    destruct Hc as (-> & _). exact He.
  - pose proof (execute_workflow_frame rt s) as Hf.
    assert (Hid : map id (workflow_elements (fst (execute_workflow rt s)))
                  = map id (workflow_elements s)).
    { apply (f_equal (map (fun x => fst (fst (fst (fst x)))))) in Hf.
      rewrite !map_map in Hf. exact Hf. }
    rewrite Forall_forall in *. intros e He.
    apply (in_map id) in He. rewrite Hid in He.
    apply in_map_iff in He. destruct He as (e0 & He0 & Hin).
    rewrite <- He0. now apply IH.
  - constructor.
  - apply (import_workflow_Forall rt _ (fun _ => True)); auto.
    + intros d n e n' _ Hl. eapply load_element_id_truthy; eauto.
    + intros doc d es _ _ _. apply Forall_forall. auto.
Qed.

(** The round trip, for the sessions the program can be in. *)
Corollary reachable_roundtrip (rt : runtime) (now : string) (s : session_state) :
  (forall k, uuid4 rt k <> EmptyString) ->
  reachable rt s ->
  workflow_elements (fst (import_workflow rt (Some (export_workflow now s)) s))
  = workflow_elements s.
Proof.
  intros Hu Hr.
  rewrite import_of_export by now apply (reachable_ids_truthy rt).
  reflexivity.
Qed.

(** ** Adding elements *)

Section Adding.

Variable rt : runtime.

Lemma add_element_to_workflow_spec (t : string) (s : session_state) :
  add_element_to_workflow rt t s
  = {| workflow_elements :=
         workflow_elements s
         ++ [added rt (uuids_drawn s) (List.length (workflow_elements s)) t];
       workflow_data := workflow_data s;
       execution_results := execution_results s;
       uuids_drawn := S (uuids_drawn s) |}.
Proof. reflexivity. Qed.

Lemma add_all_spec (ts : list string) :
  forall s,
    add_all rt ts s
    = {| workflow_elements :=
           workflow_elements s
           ++ added_from rt (uuids_drawn s) (List.length (workflow_elements s)) ts;
         workflow_data := workflow_data s;
         execution_results := execution_results s;
         uuids_drawn := uuids_drawn s + List.length ts |}.
Proof.
  unfold add_all.
  induction ts as [| t ts IH]; intros s; simpl.
  - destruct s; simpl. now rewrite app_nil_r, Nat.add_0_r.
  - rewrite IH, add_element_to_workflow_spec. simpl.
    rewrite length_app, Nat.add_1_r, <- app_assoc, Nat.add_succ_r.
    reflexivity.
Qed.

Lemma added_from_types (ts : list string) :
  forall k n, map type (added_from rt k n ts) = map PStr ts.
Proof.
  induction ts as [| t ts IH]; intros k n; simpl; [| rewrite IH]; reflexivity.
Qed.

Lemma added_from_ids (ts : list string) :
  forall k n,
    map id (added_from rt k n ts)
    = map (fun i => PStr (uuid4 rt i)) (seq k (List.length ts)).
Proof.
  induction ts as [| t ts IH]; intros k n; simpl; [| rewrite IH]; reflexivity.
Qed.

Lemma added_from_positions (ts : list string) :
  forall k n,
    map position (added_from rt k n ts)
    = map (fun i => xy (Z.of_nat i * 100) 50) (seq n (List.length ts)).
Proof.
  induction ts as [| t ts IH]; intros k n; simpl; [| rewrite IH]; reflexivity.
Qed.

Lemma added_from_fresh (ts : list string) :
  forall k n,
    Forall (fun e => status e = pending /\ config e = PDict [] /\ output e = PNone)
      (added_from rt k n ts).
Proof.
  induction ts as [| t ts IH]; intros k n; simpl; auto.
Qed.

Lemma uuid_ids_NoDup (k n : nat) :
  (forall i j, uuid4 rt i = uuid4 rt j -> i = j) ->
  NoDup (map (fun i => PStr (uuid4 rt i)) (seq k n)).
Proof.
  intros Hinj. apply Injective_map_NoDup.
  - intros i j H. inversion H. auto.
  - apply seq_NoDup.
Qed.

End Adding.

(** C9, as amended.  [add_element_to_workflow] is total: it appends, after
    all the current elements, an element with the identifier [uuid4] draws
    next, status pending, an empty config and position x = 100 * N, y = 50,
    for N the number of current elements.  When [uuid4] never repeats an
    identifier, any sequence of additions to an empty document gives
    elements with pairwise-distinct ids, in the order of the additions, at
    x = 0, 100, 200, ... *)
Theorem add_element_appends (rt : runtime) :
  (forall i j, uuid4 rt i = uuid4 rt j -> i = j) ->
  (forall t s,
      add_element_to_workflow rt t s
      = {| workflow_elements :=
             workflow_elements s
             ++ [{| id := PStr (uuid4 rt (uuids_drawn s)); type := PStr t;
                    position :=
                      xy (Z.of_nat (List.length (workflow_elements s)) * 100) 50;
                    config := PDict []; status := pending; output := PNone |}];
           workflow_data := workflow_data s;
           execution_results := execution_results s;
           uuids_drawn := S (uuids_drawn s) |}) /\
  (forall ts s0,
      workflow_elements s0 = [] ->
      map type (workflow_elements (add_all rt ts s0)) = map PStr ts /\
      NoDup (map id (workflow_elements (add_all rt ts s0))) /\
      map position (workflow_elements (add_all rt ts s0))
      = map (fun i => xy (Z.of_nat i * 100) 50) (seq 0 (List.length ts)) /\
      Forall (fun e => status e = pending /\ config e = PDict [] /\ output e = PNone)
        (workflow_elements (add_all rt ts s0))).
Proof.
  intros Hinj. split; [reflexivity |].
  intros ts s0 H0. rewrite add_all_spec. simpl. rewrite H0. simpl.
  repeat split.
  - apply added_from_types.
  - rewrite added_from_ids. now apply uuid_ids_NoDup.
  - apply added_from_positions.
  - apply added_from_fresh.
Qed.

Lemma tally_injective (i : nat) : forall j, tally i = tally j -> i = j.
Proof.
  induction i as [| i IH]; intros [| j] H; simpl in H;
    try discriminate; auto.
  inversion H. f_equal. auto.
Qed.

Lemma demo_uuid4_injective (i j : nat) :
  uuid4 demo_runtime i = uuid4 demo_runtime j -> i = j.
Proof.
  simpl. intros H. inversion H. now apply tally_injective.
Qed.

Lemma add_element_appends_witness :
  map type
    (workflow_elements (add_all demo_runtime ["pdf_upload"; "email"] initial_state))
  = [PStr "pdf_upload"; PStr "email"] /\
  NoDup
    (map id
       (workflow_elements (add_all demo_runtime ["pdf_upload"; "email"] initial_state))) /\
  map position
    (workflow_elements (add_all demo_runtime ["pdf_upload"; "email"] initial_state))
  = [xy 0 50; xy 100 50].
Proof.
  destruct (add_element_appends demo_runtime demo_uuid4_injective) as [_ H].
  destruct (H ["pdf_upload"; "email"] initial_state eq_refl) as (Ht & Hn & Hp & _).
  repeat split; assumption.
Defined.

(** C9 as stated fails for the position once an element has been removed:
    after two additions and the removal of the first element, the element
    that is left sits at x = 100, and so does the next one added. *)
Lemma added_element_shares_slot :
  ~ exists rt : runtime,
      exists e,
        workflow_elements
          (add_element_to_workflow rt "chart"
             (fst (delete_element 0 (add_all rt ["timer"; "email"] initial_state))))
        = (workflow_elements
             (fst (delete_element 0 (add_all rt ["timer"; "email"] initial_state)))
           ++ [e])%list /\
        Forall (fun e0 => placed_after e0 e)
          (workflow_elements
             (fst (delete_element 0 (add_all rt ["timer"; "email"] initial_state)))).
Proof.
  intros (rt & e & Happ & Hall).
  simpl in Happ. inversion Happ; subst e.
  simpl in Hall. inversion Hall as [| e0 l Hafter _]; subst.
  unfold placed_after in Hafter. simpl in Hafter. lia.
Qed.

(** The same additions, spelled out. *)
Example added_after_removal (rt : runtime) :
  map position
    (workflow_elements
       (add_element_to_workflow rt "chart"
          (fst (delete_element 0 (add_all rt ["timer"; "email"] initial_state)))))
  = [xy 100 50; xy 100 50].
Proof. reflexivity. Qed.

(** * More of the program *)

(** ** The executor: composition, failure, dispatch *)

Lemma verdict_set_status (rt : runtime) (e : WorkflowElement) (st : pyval) :
  verdict rt (set_status e st) = verdict rt e.
Proof. reflexivity. Qed.

Lemma settle_settle (rt : runtime) (e : WorkflowElement) :
  settle rt (settle rt e) = settle rt e.
Proof. reflexivity. Qed.

Lemma record_settle (rt : runtime) (res : results) (e : WorkflowElement) :
  record rt res (settle rt e) = record rt res e.
Proof. reflexivity. Qed.

Lemma fold_record_settled (rt : runtime) (els : list WorkflowElement) :
  forall res,
    fold_left (record rt) (map (settle rt) els) res = fold_left (record rt) els res.
Proof.
  induction els as [| e rest IH]; intros res; simpl; [reflexivity |].
  change (record rt res (settle rt e)) with (record rt res e). apply IH.
Qed.

Lemma string_ids_settled (rt : runtime) (els : list WorkflowElement) :
  string_ids els -> string_ids (map (settle rt) els).
Proof.
  unfold string_ids. intros H. rewrite forallb_forall in *.
  intros e' He'. apply in_map_iff in He'. destruct He' as (e & <- & He).
  simpl. now apply H.
Qed.

Lemma run_gives_verdict
  (rt : runtime) (s : session_state) (i : nat) (e : WorkflowElement) :
  string_ids (workflow_elements s) ->
  unique_ids (workflow_elements s) ->
  nth_error (workflow_elements s) i = Some e ->
  run_gives rt s i e (fst (verdict rt e)) (snd (verdict rt e)).
Proof.
  intros Hs Hu Hi. unfold run_gives.
  apply run_verdict; auto using string_ids_hashable, string_ids_distinct.
Qed.

(** X1.  Running a workflow twice in a row gives what one run gives: the
    same elements, the same stored results, the same outcome.  A run reads
    no status, and changes nothing else. *)
Theorem run_twice_is_run_once (rt : runtime) (s : session_state) :
  string_ids (workflow_elements s) ->
  execute_workflow rt (fst (execute_workflow rt s)) = execute_workflow rt s.
Proof.
  intros Hs.
  destruct (workflow_elements s) as [| e rest] eqn:E.
  - rewrite (execute_workflow_nothing rt s E). simpl.
    now apply execute_workflow_nothing.
  - assert (Hne : workflow_elements s <> []) by (rewrite E; discriminate).
    rewrite <- E in Hs.
    pose proof (run_and_store_string_ids rt s Hne Hs) as H1.
    set (s1 := {| workflow_elements := map (settle rt) (workflow_elements s);
                  workflow_data := workflow_data s;
                  execution_results := fold_left (record rt) (workflow_elements s) [];
                  uuids_drawn := uuids_drawn s |}) in *.
    assert (H2 : run_and_store rt s1
                 = (s1, Completed (fold_left (record rt) (workflow_elements s) []))).
    { rewrite run_and_store_string_ids; subst s1; simpl.
      - rewrite fold_record_settled, map_map. reflexivity.
      - rewrite E. discriminate.
      - now apply string_ids_settled. }
    unfold execute_workflow. rewrite H1. cbn [fst]. rewrite H2. reflexivity.
Qed.


Lemma run_twice_is_run_once_witness :
  execute_workflow demo_runtime
    (fst (execute_workflow demo_runtime
            (session_of [element_with "p" "pdf_upload" [] ready;
                         element_with "c" "conditional" demo_condition pending])))
  = execute_workflow demo_runtime
      (session_of [element_with "p" "pdf_upload" [] ready;
                   element_with "c" "conditional" demo_condition pending]).
Proof.
  apply (run_twice_is_run_once demo_runtime
           (session_of [element_with "p" "pdf_upload" [] ready;
                        element_with "c" "conditional" demo_condition pending])).
  reflexivity.
Defined.

(** X2.  What a run makes of an element does not depend on the elements
    around it: in a document with pairwise-distinct string ids, the status
    a run leaves an element in and the result it stores for it are those of
    a run of that element alone, whatever happens to the others. *)
Theorem run_treats_elements_alone
  (rt : runtime) (s : session_state) (i : nat) (e : WorkflowElement)
  (st v : pyval) :
  string_ids (workflow_elements s) ->
  unique_ids (workflow_elements s) ->
  nth_error (workflow_elements s) i = Some e ->
  run_gives rt (session_of [e]) 0 e st v ->
  run_gives rt s i e st v.
Proof.
  intros Hs Hu Hi Halone.
  assert (Hse : string_ids [e]).
  { unfold string_ids in *. rewrite forallb_forall in Hs. simpl.
    rewrite (Hs e) by (eapply nth_error_In; eauto). reflexivity. }
  assert (Hue : unique_ids [e]).
  { unfold unique_ids. simpl. repeat constructor. auto. }
  destruct Halone as (Hg & Hn).
  destruct (run_gives_verdict rt (session_of [e]) 0 e Hse Hue eq_refl) as (Hg' & Hn').
  rewrite Hg in Hg'. rewrite Hn in Hn'.
  injection Hg' as Hv. injection Hn' as Hst.
  rewrite Hst, Hv. now apply run_gives_verdict.
Qed.

Lemma run_treats_elements_alone_witness :
  run_gives demo_runtime
    (session_of [element_with "c" "conditional" [] pending;
                 element_with "p" "pdf_upload" demo_upload pending])
    1 (element_with "p" "pdf_upload" demo_upload pending)
    ready (PStr "PDF processed: a.pdf").
Proof.
  apply (run_treats_elements_alone demo_runtime
           (session_of [element_with "c" "conditional" [] pending;
                        element_with "p" "pdf_upload" demo_upload pending])
           1 (element_with "p" "pdf_upload" demo_upload pending)).
  - reflexivity.
  - unfold unique_ids. simpl. repeat constructor; simpl; intuition discriminate.
  - reflexivity.
  - unfold run_gives. split; reflexivity.
Defined.

Lemma process_element_unhashable
  (rt : runtime) (res : results) (e : WorkflowElement) :
  hashable (id e) = false ->
  process_element rt res e
  = (set_status e error, raise (TypeError (Unhashable (id e)))).
Proof.
  intros H. unfold process_element. cbv zeta. rewrite try_element_result.
  change (element_result rt (set_status e processing)) with (element_result rt e).
  destruct (element_result rt e) as [ex | [v st]]; simpl;
    unfold store; simpl; rewrite H; reflexivity.
Qed.

Lemma run_elements_unhashable
  (rt : runtime) (e : WorkflowElement) (post : list WorkflowElement) :
  hashable (id e) = false ->
  forall pre res,
    string_ids pre ->
    run_elements rt res (pre ++ e :: post)
    = ((map (settle rt) pre ++ set_status e error :: post)%list,
       raise (TypeError (Unhashable (id e)))).
Proof.
  intros H. induction pre as [| p pre IH]; intros res Hs; simpl.
  - rewrite process_element_unhashable by assumption. reflexivity.
  - apply string_ids_inv in Hs. destruct Hs as [[a Ha] Hs].
    rewrite process_element_hashable by (rewrite Ha; reflexivity).
    simpl. rewrite IH by assumption. reflexivity.
Qed.

(** X3.  An element whose id cannot be a key (a list or a dict, which an
    import can leave) stops the run: the [TypeError] of the store leaves
    [execute_workflow] from inside its own handler.  The elements before it
    are settled, the element itself is marked error, the ones after it are
    untouched, and the stored results are those of before the run. *)
Theorem run_stops_at_unhashable_id
  (rt : runtime) (s : session_state) (pre post : list WorkflowElement)
  (e : WorkflowElement) :
  workflow_elements s = (pre ++ e :: post)%list ->
  string_ids pre ->
  hashable (id e) = false ->
  execute_workflow rt s
  = (with_elements s (map (settle rt) pre ++ set_status e error :: post)%list,
     RunRaised (TypeError (Unhashable (id e)))).
Proof.
  intros E Hs H. unfold execute_workflow, run_and_store. rewrite E.
  rewrite run_elements_unhashable by assumption.
  destruct pre; reflexivity.
Qed.

Lemma run_stops_at_unhashable_id_witness :
  execute_workflow demo_runtime
    (session_of [element_with "t" "timer" [] pending;
                 {| id := PList [PInt 1]; type := PStr "timer";
                    position := xy 0 0; config := PDict [];
                    status := pending; output := PNone |};
                 element_with "u" "timer" [] pending])
  = (session_of [element_with "t" "timer" [] ready;
                 {| id := PList [PInt 1]; type := PStr "timer";
                    position := xy 0 0; config := PDict [];
                    status := error; output := PNone |};
                 element_with "u" "timer" [] pending],
     RunRaised (TypeError (Unhashable (PList [PInt 1])))).
Proof.
  apply (run_stops_at_unhashable_id demo_runtime
           (session_of [element_with "t" "timer" [] pending;
                        {| id := PList [PInt 1]; type := PStr "timer";
                           position := xy 0 0; config := PDict [];
                           status := pending; output := PNone |};
                        element_with "u" "timer" [] pending])
           [element_with "t" "timer" [] pending]
           [element_with "u" "timer" [] pending]
           {| id := PList [PInt 1]; type := PStr "timer";
              position := xy 0 0; config := PDict [];
              status := pending; output := PNone |});
    reflexivity.
Defined.

Lemma run_elements_terminal (rt : runtime) (els : list WorkflowElement) :
  forall res res',
    snd (run_elements rt res els) = ret res' ->
    Forall terminal (fst (run_elements rt res els)).
Proof.
  induction els as [| e rest IH]; intros res res' H; simpl in *; auto.
  pose proof (process_element_status rt res e) as Hp.
  destruct (process_element rt res e) as [e' [ex | res1]]; simpl in *.
  - discriminate.
  - specialize (IH res1).
    destruct (run_elements rt res1 rest) as [rest' r]; simpl in *.
    constructor; eauto.
Qed.

Lemma run_and_store_terminal
  (rt : runtime) (s : session_state) (res : results) :
  snd (run_and_store rt s) = Completed res ->
  Forall terminal (workflow_elements (fst (run_and_store rt s))).
Proof.
  unfold run_and_store.
  destruct (workflow_elements s) as [| e rest] eqn:E; [discriminate |].
  pose proof (run_elements_terminal rt (e :: rest) []) as Ht.
  destruct (run_elements rt [] (e :: rest)) as [els [ex | res1]]; simpl in *;
    [discriminate |].
  intros _. eapply Ht. reflexivity.
Qed.

(** A run that completes has stored its results first. *)
Lemma execute_workflow_completed
  (rt : runtime) (s : session_state) (res : results) :
  snd (execute_workflow rt s) = Completed res ->
  snd (run_and_store rt s) = Completed res.
Proof.
  rewrite execute_workflow_snd.
  destruct (snd (run_and_store rt s)) as [| res1 | ex]; auto.
  destruct (snd (show_results _ _ _ _)); auto. discriminate.
Qed.

(** X4.  When a run completes, every element is ready or in error: none is
    left pending or processing, and none keeps a status an import gave it. *)
Theorem completed_run_is_terminal
  (rt : runtime) (s : session_state) (res : results) :
  snd (execute_workflow rt s) = Completed res ->
  Forall terminal (workflow_elements (fst (execute_workflow rt s))).
Proof.
  intros H. apply execute_workflow_completed in H.
  rewrite execute_workflow_fst. now apply (run_and_store_terminal rt s res).
Qed.


Lemma completed_run_is_terminal_witness :
  Forall terminal
    (workflow_elements
       (fst (execute_workflow demo_runtime
               (session_of [element_with "a" "loop" [] (PStr "done");
                            element_with "b" "pdf_upload" [] processing])))).
Proof.
  apply (completed_run_is_terminal demo_runtime
           (session_of [element_with "a" "loop" [] (PStr "done");
                        element_with "b" "pdf_upload" [] processing])
           [(PStr "a", PStr "loop executed successfully");
            (PStr "b", PStr "No PDF uploaded")]).
  reflexivity.
Defined.

Lemma in_strs_inv (v : pyval) (l : list string) :
  in_strs v l = true -> exists t, v = PStr t /\ In t l.
Proof.
  unfold in_strs. intros H. apply existsb_exists in H.
  destruct H as (x & Hx & Hv).
  destruct v; try discriminate. simpl in Hv.
  apply String.eqb_eq in Hv. subst. eauto.
Qed.

Ltac settle_verdict :=
  repeat match goal with
    | |- context [if ?c then _ else _] => destruct c
    | |- context [match lookup ?k ?d with _ => _ end] => destruct (lookup k d)
    end;
  simpl; try reflexivity; eauto.

(** X5.  In a document with pairwise-distinct string ids, an input element
    (text_input, number_input, date_input, checkbox, slider, selectbox)
    with a dict config is left ready by a run, and the result stored for it
    is the value of its config as it is, not its text; without a value the
    result is "No value". *)
Theorem input_element_result
  (rt : runtime) (s : session_state) (i : nat) (e : WorkflowElement) (d : pydict) :
  string_ids (workflow_elements s) ->
  unique_ids (workflow_elements s) ->
  nth_error (workflow_elements s) i = Some e ->
  in_strs (type e)
    ["text_input"; "number_input"; "date_input"; "checkbox"; "slider"; "selectbox"]
  = true ->
  config e = PDict d ->
  run_gives rt s i e ready
    (match lookup "value" d with
     | Some v => v
     | None => PStr "No value"
     end).
Proof.
  intros Hs Hu Hi Ht Hc.
  assert (Hv : verdict rt e
               = (ready, match lookup "value" d with
                         | Some v => v
                         | None => PStr "No value"
                         end)).
  { apply in_strs_inv in Ht. destruct Ht as (t & Ht & Hin).
    unfold verdict, element_result. rewrite Ht, Hc.
    simpl in Hin.
    repeat (destruct Hin as [<- | Hin];
            [simpl; destruct (lookup "value" d); reflexivity |]).
    contradiction. }
  pose proof (run_gives_verdict rt s i e Hs Hu Hi) as H.
  rewrite Hv in H. exact H.
Qed.

Lemma input_element_result_witness :
  run_gives demo_runtime
    (session_of [element_with "n" "number_input"
                   [("label", PStr "Enter number"); ("value", PInt 7)] pending])
    0
    (element_with "n" "number_input"
       [("label", PStr "Enter number"); ("value", PInt 7)] pending)
    ready (PInt 7).
Proof.
  apply (input_element_result demo_runtime
           (session_of [element_with "n" "number_input"
                          [("label", PStr "Enter number"); ("value", PInt 7)]
                          pending])
           0
           (element_with "n" "number_input"
              [("label", PStr "Enter number"); ("value", PInt 7)] pending)
           [("label", PStr "Enter number"); ("value", PInt 7)]);
    try reflexivity.
  unfold unique_ids. simpl. repeat constructor; simpl; intuition discriminate.
Defined.

(** X6.  In a document with pairwise-distinct string ids, an api_call or
    email element with a dict config is always left ready by a run, never
    in error: no call is made and nothing is sent, an empty url or
    recipient goes into the stored message as it is, and a missing one
    reads "undefined". *)
Theorem api_call_and_email_always_succeed
  (rt : runtime) (s : session_state) (i : nat) (e : WorkflowElement) (d : pydict) :
  string_ids (workflow_elements s) ->
  unique_ids (workflow_elements s) ->
  nth_error (workflow_elements s) i = Some e ->
  in_strs (type e) ["api_call"; "email"] = true ->
  config e = PDict d ->
  run_gives rt s i e ready
    (if str_eq (type e) "api_call" then
       PStr ("API call to "
             ++ py_str rt (match lookup "url" d with
                           | Some u => u
                           | None => PStr "undefined"
                           end)
             ++ " completed")
     else
       PStr ("Email sent to "
             ++ py_str rt (match lookup "recipient" d with
                           | Some r => r
                           | None => PStr "undefined"
                           end))).
Proof.
  intros Hs Hu Hi Ht Hc.
  pose proof (run_gives_verdict rt s i e Hs Hu Hi) as H.
  apply in_strs_inv in Ht. destruct Ht as (t & Ht & Hin).
  unfold verdict, element_result in H. rewrite Ht, Hc in H. rewrite Ht.
  simpl in Hin. destruct Hin as [<- | [<- | []]]; simpl in *.
  - destruct (lookup "url" d); exact H.
  - destruct (lookup "recipient" d); exact H.
Qed.

Lemma api_call_and_email_always_succeed_witness :
  run_gives demo_runtime
    (session_of [element_with "m" "email" [("recipient", PStr "")] pending])
    0 (element_with "m" "email" [("recipient", PStr "")] pending)
    ready (PStr "Email sent to ").
Proof.
  apply (api_call_and_email_always_succeed demo_runtime
           (session_of [element_with "m" "email" [("recipient", PStr "")] pending])
           0 (element_with "m" "email" [("recipient", PStr "")] pending)
           [("recipient", PStr "")]);
    try reflexivity.
  unfold unique_ids. simpl. repeat constructor; simpl; intuition discriminate.
Defined.

(** X7.  In a document with pairwise-distinct string ids, an element of any
    other type (loop, chart, save_data, timer, a type the palette does not
    know, a type that is no string) is left ready by a run, with the result
    "<type> executed successfully" stored for it, whatever its config holds
    or is; no branch of the executor gives a chart or a loop a behaviour of
    its own.  This is what the loop and the store do: the report that
    follows them raises for a type that is no string. *)
Theorem other_types_succeed
  (rt : runtime) (s : session_state) (i : nat) (e : WorkflowElement) :
  string_ids (workflow_elements s) ->
  unique_ids (workflow_elements s) ->
  nth_error (workflow_elements s) i = Some e ->
  in_strs (type e) ("data_display" :: config_reading_types) = false ->
  run_gives rt s i e ready (PStr (py_str rt (type e) ++ " executed successfully")).
Proof.
  intros Hs Hu Hi Ht.
  pose proof (run_gives_verdict rt s i e Hs Hu Hi) as H.
  unfold in_strs in Ht. simpl in Ht.
  repeat (apply orb_false_elim in Ht; destruct Ht as [? Ht]).
  unfold verdict, element_result, in_strs in H. simpl in H.
  repeat match goal with
    | E : str_eq (type e) _ = false |- _ => rewrite E in H; clear E
    end.
  simpl in H. exact H.
Qed.

Lemma other_types_succeed_witness :
  run_gives demo_runtime
    (session_of [element_with "k" "chart" [("chart_type", PStr "bar")] pending])
    0 (element_with "k" "chart" [("chart_type", PStr "bar")] pending)
    ready (PStr "chart executed successfully").
Proof.
  apply (other_types_succeed demo_runtime
           (session_of [element_with "k" "chart" [("chart_type", PStr "bar")] pending])
           0 (element_with "k" "chart" [("chart_type", PStr "bar")] pending));
    try reflexivity.
  unfold unique_ids. simpl. repeat constructor; simpl; intuition discriminate.
Defined.

(** X8.  In a document with pairwise-distinct string ids, an element whose
    branch reads the config, and whose config is not a dict (null, a
    number, a string or a list in an imported document), is left in error
    by a run, with a text stored as its result. *)
Theorem config_that_is_no_dict_fails
  (rt : runtime) (s : session_state) (i : nat) (e : WorkflowElement) :
  string_ids (workflow_elements s) ->
  unique_ids (workflow_elements s) ->
  nth_error (workflow_elements s) i = Some e ->
  in_strs (type e) config_reading_types = true ->
  is_dict (config e) = false ->
  exists text, run_gives rt s i e error (PStr text).
Proof.
  intros Hs Hu Hi Ht Hc.
  assert (Hv : exists text, verdict rt e = (error, PStr text)).
  { apply in_strs_inv in Ht. destruct Ht as (t & Ht & Hin).
    unfold verdict, element_result. rewrite Ht.
    unfold config_reading_types in Hin. simpl in Hin.
    destruct (config e) as [| b | z | f | k | l | d]; try discriminate;
      repeat (destruct Hin as [<- | Hin]; [simpl; settle_verdict |]);
      contradiction. }
  destruct Hv as [text Hv]. exists text.
  pose proof (run_gives_verdict rt s i e Hs Hu Hi) as H.
  rewrite Hv in H. exact H.
Qed.

Lemma config_that_is_no_dict_fails_witness :
  exists text,
    run_gives demo_runtime
      (session_of [{| id := PStr "t"; type := PStr "text_input";
                      position := xy 0 0; config := PNone;
                      status := ready; output := PNone |};
                   element_with "u" "timer" [] pending])
      0
      {| id := PStr "t"; type := PStr "text_input"; position := xy 0 0;
         config := PNone; status := ready; output := PNone |}
      error (PStr text).
Proof.
  apply (config_that_is_no_dict_fails demo_runtime
           (session_of [{| id := PStr "t"; type := PStr "text_input";
                           position := xy 0 0; config := PNone;
                           status := ready; output := PNone |};
                        element_with "u" "timer" [] pending])
           0
           {| id := PStr "t"; type := PStr "text_input"; position := xy 0 0;
              config := PNone; status := ready; output := PNone |});
    try reflexivity.
  unfold unique_ids. simpl. repeat constructor; simpl; intuition discriminate.
Defined.

(** What a run leaves of the element at position [i] needs less of the ids:
    that they can be keys. *)
Lemma run_settles (rt : runtime) (s : session_state) (i : nat) (e : WorkflowElement) :
  hashable_ids (workflow_elements s) ->
  nth_error (workflow_elements s) i = Some e ->
  nth_error (workflow_elements (fst (execute_workflow rt s))) i
  = Some (settle rt e).
Proof.
  intros Hs Hi.
  rewrite execute_workflow_stored; auto.
  - cbn [workflow_elements]. now apply map_nth_error.
  - intros E. rewrite E in Hi. destruct i; discriminate.
Qed.

(** X9.  An element whose config is the empty dict (the config of an element
    that no form has filled) ends a run ready, unless it is a pdf_upload or
    a conditional, which end it in error: these two are the only types
    whose branch requires a key.  The ids of the document are keys. *)
Theorem run_with_empty_config
  (rt : runtime) (s : session_state) (i : nat) (e : WorkflowElement) :
  hashable_ids (workflow_elements s) ->
  nth_error (workflow_elements s) i = Some e ->
  config e = PDict [] ->
  nth_error (workflow_elements (fst (execute_workflow rt s))) i
  = Some (set_status e
            (if str_eq (type e) "pdf_upload" || str_eq (type e) "conditional"
             then error else ready)).
Proof.
  intros Hs Hi Hc.
  rewrite (run_settles rt s i e Hs Hi). f_equal.
  unfold settle, verdict, element_result, in_strs. rewrite Hc. f_equal.
  destruct (type e) as [| b | z | f | t | l | d]; simpl; try reflexivity.
  repeat match goal with
    | |- context [(t =? ?x)%string] =>
        destruct (String.eqb_spec t x) as [-> | ?]; [reflexivity |]; simpl
    end.
  reflexivity.
Qed.

Lemma run_with_empty_config_witness :
  nth_error
    (workflow_elements
       (fst (execute_workflow demo_runtime
               (session_of [element_with "a" "save_data" [] pending;
                            element_with "b" "conditional" [] pending]))))
    1
  = Some (element_with "b" "conditional" [] error).
Proof.
  apply (run_with_empty_config demo_runtime
           (session_of [element_with "a" "save_data" [] pending;
                        element_with "b" "conditional" [] pending])
           1 (element_with "b" "conditional" [] pending));
    reflexivity.
Defined.


(** ** Configuration updates: what they keep, and how they meet a run *)

Lemma nth_error_replace_nth {A} (x : A) (l : list A) :
  forall i e,
    nth_error l i = Some e -> nth_error (replace_nth i x l) i = Some x.
Proof.
  induction l as [| y r IH]; intros [| i] e H; simpl in *;
    try discriminate; eauto.
Qed.

Lemma map_replace_nth {A B} (f : A -> B) (x : A) (l : list A) :
  forall i e,
    nth_error l i = Some e -> f x = f e ->
    map f (replace_nth i x l) = map f l.
Proof.
  induction l as [| y r IH]; intros [| i] e H Hf; simpl in *;
    try discriminate.
  - inversion H; subst. now rewrite Hf.
  - f_equal. eauto.
Qed.

Lemma replace_nth_same {A} (l : list A) :
  forall i e, nth_error l i = Some e -> replace_nth i e l = l.
Proof.
  induction l as [| y r IH]; intros [| i] e H; simpl in *;
    try discriminate.
  - inversion H; subst. reflexivity.
  - f_equal. eauto.
Qed.

Lemma lookup_assign_same (d : pydict) (k : string) (v : pyval) :
  lookup k (assign d k v) = Some v.
Proof.
  induction d as [| [k' v'] r IH]; simpl.
  - now rewrite String.eqb_refl.
  - destruct (k' =? k)%string eqn:E; simpl; now rewrite E.
Qed.

Lemma lookup_assign_other (d : pydict) (k k2 : string) (v : pyval) :
  k <> k2 -> lookup k (assign d k2 v) = lookup k d.
Proof.
  intros Hk. induction d as [| [k' v'] r IH]; simpl.
  - destruct (String.eqb_spec k2 k); congruence.
  - destruct (String.eqb_spec k' k2) as [-> | Hne]; simpl.
    + destruct (String.eqb_spec k2 k); congruence.
    + destruct (k' =? k)%string; auto.
Qed.

Lemma assign_present (d : pydict) (k : string) (v : pyval) :
  lookup k d = Some v -> assign d k v = d.
Proof.
  induction d as [| [k' v'] r IH]; simpl; [discriminate |].
  destruct (k' =? k)%string; intros H.
  - inversion H. reflexivity.
  - f_equal. auto.
Qed.

(** X10.  A config update of any element changes no id, type, position or
    output, adds and removes no element, and never marks an element as in
    error: only a run does that. *)
Theorem config_update_keeps_elements (i : nat) (w : widgets) (s : session_state) :
  map (fun e => (id e, type e, position e, output e))
    (workflow_elements (fst (update_config i w s)))
  = map (fun e => (id e, type e, position e, output e)) (workflow_elements s) /\
  (Forall (fun e => status e <> error) (workflow_elements s) ->
   Forall (fun e => status e <> error)
     (workflow_elements (fst (update_config i w s)))).
Proof.
  unfold update_config.
  destruct (nth_error (workflow_elements s) i) as [e |] eqn:E; simpl; auto.
  destruct (render_element_config e w) as [ex | e'] eqn:R; simpl; auto.
  apply render_element_config_inv in R.
  destruct R as (Hi & Ht & Hp & Ho & Hst). split.
  - apply (map_replace_nth _ e' _ i e E). congruence.
  - intros H. apply Forall_replace_nth; auto.
    assert (He : status e <> error).
    { rewrite Forall_forall in H. apply H. eapply nth_error_In; eauto. }
    destruct Hst as [-> | [-> | ->]]; auto; discriminate.
Qed.

Ltac same_branch :=
  repeat match goal with
    | E : str_eq ?t ?x = _ |- context [str_eq ?t ?x] => rewrite E
    end.

(** X11.  A config update is idempotent: done again with the same widget
    values, it changes nothing more.  The element has a string for a type:
    the page draws the form of no other. *)
Theorem config_update_idempotent (e e' : WorkflowElement) (w : widgets) :
  is_str (type e) = true ->
  render_element_config e w = ret e' ->
  render_element_config e' w = ret e'.
Proof.
  intros _ H. unfold render_element_config in *.
  destruct (str_eq (type e) "pdf_upload") eqn:T1.
  { destruct (uploaded_file w) as [[name size] |] eqn:U.
    - destruct (config_assign e "filename" (PStr name)) as [ex | e1] eqn:E1;
        [discriminate |].
      apply config_assign_inv in E1. destruct E1 as (d & Hc & ->).
      simpl in H. inversion H. subst e'. clear H.
      simpl. rewrite T1. unfold config_assign. simpl.
      rewrite (assign_present (assign (assign d "filename" (PStr name)) "size" (PInt size))
                 "filename" (PStr name))
        by (rewrite lookup_assign_other by discriminate; apply lookup_assign_same).
      rewrite (assign_present (assign (assign d "filename" (PStr name)) "size" (PInt size))
                 "size" (PInt size))
        by apply lookup_assign_same.
      reflexivity.
    - inversion H. subst e'. rewrite T1. reflexivity. }
  destruct (str_eq (type e) "text_input") eqn:T2.
  { destruct (truthy (PStr (text w))) eqn:V; inversion H; subst e'; simpl;
      same_branch; reflexivity. }
  destruct (str_eq (type e) "number_input") eqn:T3;
    [inversion H; subst e'; simpl; same_branch; reflexivity |].
  destruct (str_eq (type e) "date_input") eqn:T4;
    [inversion H; subst e'; simpl; same_branch; reflexivity |].
  destruct (str_eq (type e) "checkbox") eqn:T5;
    [inversion H; subst e'; simpl; same_branch; reflexivity |].
  destruct (str_eq (type e) "slider") eqn:T6;
    [inversion H; subst e'; simpl; same_branch; reflexivity |].
  destruct (str_eq (type e) "selectbox") eqn:T7.
  { destruct (truthy (PList (map PStr (parse_options (options_text w))))) eqn:V;
      inversion H; subst e'; simpl; same_branch; reflexivity. }
  destruct (str_eq (type e) "conditional") eqn:T8;
    [inversion H; subst e'; simpl; same_branch; reflexivity |].
  destruct (str_eq (type e) "data_display") eqn:T9;
    [inversion H; subst e'; simpl; same_branch; reflexivity |].
  destruct (str_eq (type e) "chart") eqn:T10;
    [inversion H; subst e'; simpl; same_branch; reflexivity |].
  destruct (str_eq (type e) "api_call") eqn:T11;
    [inversion H; subst e'; simpl; same_branch; reflexivity |].
  destruct (str_eq (type e) "email") eqn:T12;
    [inversion H; subst e'; simpl; same_branch; reflexivity |].
  destruct (type e) eqn:Et; try discriminate.
  inversion H. subst e'. rewrite Et. same_branch. reflexivity.
Qed.

Lemma config_update_idempotent_witness :
  render_element_config
    (element_with "p" "pdf_upload" demo_upload ready)
    {| uploaded_file := Some ("a.pdf", 3); label := ""; text := "";
       number := PInt 0; date := ""; checked := false;
       min_val := PInt 0; max_val := PInt 100; slider := 0;
       options_text := ""; selected := 0;
       condition_type := ""; condition_value := "";
       true_action := ""; false_action := "";
       display_type := ""; chart_type := "";
       url := ""; method := ""; headers := "";
       recipient := ""; subject := ""; body := "" |}
  = ret (element_with "p" "pdf_upload" demo_upload ready).
Proof.
  apply (config_update_idempotent
           (element_with "p" "pdf_upload" [] pending)
           (element_with "p" "pdf_upload" demo_upload ready)
           {| uploaded_file := Some ("a.pdf", 3); label := ""; text := "";
              number := PInt 0; date := ""; checked := false;
              min_val := PInt 0; max_val := PInt 100; slider := 0;
              options_text := ""; selected := 0;
              condition_type := ""; condition_value := "";
              true_action := ""; false_action := "";
              display_type := ""; chart_type := "";
              url := ""; method := ""; headers := "";
              recipient := ""; subject := ""; body := "" |});
    reflexivity.
Defined.

Lemma forallb_replace_nth {A} (P : A -> bool) (x : A) (l : list A) :
  forall i, P x = true -> forallb P l = true -> forallb P (replace_nth i x l) = true.
Proof.
  induction l as [| y r IH]; intros [| i] Hx H; simpl in *; auto;
    apply andb_prop in H; destruct H as [Hy Hr]; apply andb_true_intro; auto.
Qed.

Lemma update_config_done
  (i : nat) (w : widgets) (s : session_state) (e e' : WorkflowElement) :
  nth_error (workflow_elements s) i = Some e ->
  render_element_config e w = ret e' ->
  update_config i w s
  = (with_elements s (replace_nth i e' (workflow_elements s)), None).
Proof.
  intros Hi Hr. unfold update_config. rewrite Hi, Hr. reflexivity.
Qed.

(** A run after a config update gives the updated element its verdict. *)
Lemma run_after_update
  (rt : runtime) (s : session_state) (i : nat) (w : widgets)
  (e e' : WorkflowElement) :
  string_ids (workflow_elements s) ->
  unique_ids (workflow_elements s) ->
  nth_error (workflow_elements s) i = Some e ->
  render_element_config e w = ret e' ->
  run_gives rt (fst (update_config i w s)) i e'
    (fst (verdict rt e')) (snd (verdict rt e')).
Proof.
  intros Hs Hu Hi Hr.
  rewrite (update_config_done i w s e e' Hi Hr). simpl.
  pose proof (render_element_config_inv e e' w Hr) as (Hid & _).
  apply run_gives_verdict; simpl.
  - unfold string_ids in *. apply forallb_replace_nth; auto.
    rewrite Hid. rewrite forallb_forall in Hs. apply Hs.
    eapply nth_error_In; eauto.
  - unfold unique_ids in *.
    rewrite (map_replace_nth id e' _ i e Hi Hid). exact Hu.
  - eapply nth_error_replace_nth; eauto.
Qed.

Lemma configured_verdict (rt : runtime) (e : WorkflowElement) (w : widgets) :
  in_strs (type e) always_configured_types = true ->
  exists e' v,
    render_element_config e w = ret e' /\ verdict rt e' = (ready, v).
Proof.
  intros Ht. apply in_strs_inv in Ht. destruct Ht as (t & Ht & Hin).
  unfold always_configured_types in Hin. simpl in Hin.
  unfold render_element_config. rewrite Ht.
  repeat (destruct Hin as [<- | Hin];
          [simpl; try destruct (text w =? "")%string;
           eexists; eexists; (split; [reflexivity |]);
           unfold verdict, element_result; simpl; rewrite Ht; simpl; reflexivity |]).
  contradiction.
Qed.

(** X12.  In a document with pairwise-distinct string ids: once its form
    has been drawn, an element of a type whose form always fills the config
    (text_input, number_input, date_input, checkbox, slider, conditional,
    data_display, chart, api_call, email) is left ready by a run, whatever
    config it had before, the broken config of an import included, and
    also when the update itself left it pending. *)
Theorem configured_element_runs_ready
  (rt : runtime) (s : session_state) (i : nat) (w : widgets) (e : WorkflowElement) :
  string_ids (workflow_elements s) ->
  unique_ids (workflow_elements s) ->
  nth_error (workflow_elements s) i = Some e ->
  in_strs (type e) always_configured_types = true ->
  exists e' v,
    render_element_config e w = ret e' /\
    run_gives rt (fst (update_config i w s)) i e' ready v.
Proof.
  intros Hs Hu Hi Ht.
  destruct (configured_verdict rt e w Ht) as (e' & v & Hr & Hv).
  exists e', v. split; [exact Hr |].
  pose proof (run_after_update rt s i w e e' Hs Hu Hi Hr) as H.
  rewrite Hv in H. exact H.
Qed.

Lemma configured_element_runs_ready_witness :
  exists e' v,
    render_element_config
      {| id := PStr "c"; type := PStr "conditional"; position := xy 0 0;
         config := PNone; status := error; output := PNone |}
      (form_with_text "") = ret e' /\
    run_gives demo_runtime
      (fst (update_config 0 (form_with_text "")
              (session_of [{| id := PStr "c"; type := PStr "conditional";
                              position := xy 0 0; config := PNone;
                              status := error; output := PNone |}])))
      0 e' ready v.
Proof.
  apply (configured_element_runs_ready demo_runtime
           (session_of [{| id := PStr "c"; type := PStr "conditional";
                           position := xy 0 0; config := PNone;
                           status := error; output := PNone |}])
           0 (form_with_text "")
           {| id := PStr "c"; type := PStr "conditional"; position := xy 0 0;
              config := PNone; status := error; output := PNone |});
    try reflexivity.
  unfold unique_ids. simpl. repeat constructor; simpl; intuition discriminate.
Defined.

(** X13.  In a document with pairwise-distinct string ids, what is typed
    into a text_input is what a run stores for it, the empty text too: an
    element whose text is empty is left as it was by the update (pending,
    if it was never filled) and is ready after the run, with the empty
    string as its result. *)
Theorem typed_text_is_the_result
  (rt : runtime) (s : session_state) (i : nat) (w : widgets) (e : WorkflowElement) :
  string_ids (workflow_elements s) ->
  unique_ids (workflow_elements s) ->
  nth_error (workflow_elements s) i = Some e ->
  type e = PStr "text_input" ->
  exists e',
    render_element_config e w = ret e' /\
    status e' = (if truthy (PStr (text w)) then ready else status e) /\
    run_gives rt (fst (update_config i w s)) i e' ready (PStr (text w)).
Proof.
  intros Hs Hu Hi Ht.
  assert (Hr : exists e',
             render_element_config e w = ret e' /\
             status e' = (if truthy (PStr (text w)) then ready else status e) /\
             verdict rt e' = (ready, PStr (text w))).
  { unfold render_element_config. rewrite Ht. simpl.
    destruct (text w =? "")%string; simpl; eexists;
      (split; [reflexivity |]); (split; [reflexivity |]);
      unfold verdict, element_result; simpl; rewrite Ht; reflexivity. }
  destruct Hr as (e' & Hr & Hst & Hv).
  exists e'. split; [exact Hr | split; [exact Hst |]].
  pose proof (run_after_update rt s i w e e' Hs Hu Hi Hr) as H.
  rewrite Hv in H. exact H.
Qed.

Lemma typed_text_is_the_result_witness :
  exists e',
    render_element_config (element_with "t" "text_input" [] pending)
      (form_with_text "") = ret e' /\
    status e' = pending /\
    run_gives demo_runtime
      (fst (update_config 0 (form_with_text "")
              (session_of [element_with "t" "text_input" [] pending])))
      0 e' ready (PStr "").
Proof.
  apply (typed_text_is_the_result demo_runtime
           (session_of [element_with "t" "text_input" [] pending])
           0 (form_with_text "") (element_with "t" "text_input" [] pending));
    try reflexivity.
  unfold unique_ids. simpl. repeat constructor; simpl; intuition discriminate.
Defined.

(** X14.  In a document with pairwise-distinct string ids, attaching a file
    to a pdf_upload element whose config is a dict sets [filename] and
    [size], keeps every other key of the config, and marks the element
    ready; a run then leaves it ready and stores "PDF processed: <name>"
    for it.  The config keeps the file when the uploader is emptied
    afterwards. *)
Theorem attached_file_is_processed
  (rt : runtime) (s : session_state) (i : nat) (w : widgets) (e : WorkflowElement)
  (d : pydict) (name : string) (size : Z) :
  string_ids (workflow_elements s) ->
  unique_ids (workflow_elements s) ->
  nth_error (workflow_elements s) i = Some e ->
  type e = PStr "pdf_upload" ->
  config e = PDict d ->
  uploaded_file w = Some (name, size) ->
  exists e' d',
    render_element_config e w = ret e' /\
    config e' = PDict d' /\ status e' = ready /\
    lookup "filename" d' = Some (PStr name) /\
    lookup "size" d' = Some (PInt size) /\
    (forall k, k <> "filename" -> k <> "size" -> lookup k d' = lookup k d) /\
    run_gives rt (fst (update_config i w s)) i e' ready
      (PStr ("PDF processed: " ++ name)) /\
    (forall w0, uploaded_file w0 = None -> render_element_config e' w0 = ret e').
Proof.
  intros Hs Hu Hi Ht Hc Hf.
  set (d' := assign (assign d "filename" (PStr name)) "size" (PInt size)).
  assert (Hr : render_element_config e w = ret (set_status (set_config e (PDict d')) ready)).
  { unfold render_element_config, config_assign. rewrite Ht, Hf, Hc. reflexivity. }
  assert (Hname : lookup "filename" d' = Some (PStr name)).
  { unfold d'. rewrite lookup_assign_other by discriminate.
    apply lookup_assign_same. }
  assert (Hrun : run_gives rt (fst (update_config i w s)) i
                   (set_status (set_config e (PDict d')) ready) ready
                   (PStr ("PDF processed: " ++ name))).
  { pose proof (run_after_update rt s i w e _ Hs Hu Hi Hr) as H.
    unfold verdict, element_result in H. simpl in H.
    rewrite Ht in H. simpl in H. rewrite Hname in H. simpl in H. exact H. }
  destruct Hrun as [Hg Hn].
  exists (set_status (set_config e (PDict d')) ready), d'.
  repeat split; auto.
  - apply lookup_assign_same.
  - intros k Hk1 Hk2. unfold d'.
    rewrite !lookup_assign_other by congruence. reflexivity.
  - intros w0 Hw0. unfold render_element_config. simpl.
    rewrite Ht, Hw0. reflexivity.
Qed.

Lemma attached_file_is_processed_witness :
  exists e' d',
    render_element_config (element_with "p" "pdf_upload" [("note", PInt 1)] pending)
      {| uploaded_file := Some ("a.pdf", 3); label := ""; text := "";
         number := PInt 0; date := ""; checked := false;
         min_val := PInt 0; max_val := PInt 100; slider := 0;
         options_text := ""; selected := 0;
         condition_type := ""; condition_value := "";
         true_action := ""; false_action := "";
         display_type := ""; chart_type := "";
         url := ""; method := ""; headers := "";
         recipient := ""; subject := ""; body := "" |} = ret e' /\
    config e' = PDict d' /\ status e' = ready /\
    lookup "filename" d' = Some (PStr "a.pdf") /\
    lookup "size" d' = Some (PInt 3) /\
    (forall k, k <> "filename" -> k <> "size" ->
               lookup k d' = lookup k [("note", PInt 1)]) /\
    run_gives demo_runtime
      (fst (update_config 0
              {| uploaded_file := Some ("a.pdf", 3); label := ""; text := "";
                 number := PInt 0; date := ""; checked := false;
                 min_val := PInt 0; max_val := PInt 100; slider := 0;
                 options_text := ""; selected := 0;
                 condition_type := ""; condition_value := "";
                 true_action := ""; false_action := "";
                 display_type := ""; chart_type := "";
                 url := ""; method := ""; headers := "";
                 recipient := ""; subject := ""; body := "" |}
              (session_of [element_with "p" "pdf_upload" [("note", PInt 1)] pending])))
      0 e' ready (PStr "PDF processed: a.pdf") /\
    (forall w0, uploaded_file w0 = None -> render_element_config e' w0 = ret e').
Proof.
  apply (attached_file_is_processed demo_runtime
           (session_of [element_with "p" "pdf_upload" [("note", PInt 1)] pending])
           0 _ (element_with "p" "pdf_upload" [("note", PInt 1)] pending)
           [("note", PInt 1)] "a.pdf" 3);
    try reflexivity.
  unfold unique_ids. simpl. repeat constructor; simpl; intuition discriminate.
Defined.

(** X15.  Attaching a file to a pdf_upload element whose config is not a
    dict (as an import can leave it) raises, and the session stays as it
    was: neither the config nor the status is touched. *)
Theorem attaching_to_broken_config_raises
  (i : nat) (w : widgets) (s : session_state) (e : WorkflowElement)
  (name : string) (size : Z) :
  nth_error (workflow_elements s) i = Some e ->
  type e = PStr "pdf_upload" ->
  is_dict (config e) = false ->
  uploaded_file w = Some (name, size) ->
  update_config i w s = (s, Some (TypeError (NoItemAssignment (config e)))).
Proof.
  intros Hi Ht Hc Hf. unfold update_config. rewrite Hi.
  unfold render_element_config, config_assign. rewrite Ht, Hf. simpl.
  destruct (config e); try discriminate; reflexivity.
Qed.

Lemma attaching_to_broken_config_raises_witness :
  update_config 0
    {| uploaded_file := Some ("a.pdf", 3); label := ""; text := "";
       number := PInt 0; date := ""; checked := false;
       min_val := PInt 0; max_val := PInt 100; slider := 0;
       options_text := ""; selected := 0;
       condition_type := ""; condition_value := "";
       true_action := ""; false_action := "";
       display_type := ""; chart_type := "";
       url := ""; method := ""; headers := "";
       recipient := ""; subject := ""; body := "" |}
    (session_of [{| id := PStr "p"; type := PStr "pdf_upload";
                    position := xy 0 0; config := PList [];
                    status := pending; output := PNone |}])
  = (session_of [{| id := PStr "p"; type := PStr "pdf_upload";
                    position := xy 0 0; config := PList [];
                    status := pending; output := PNone |}],
     Some (TypeError (NoItemAssignment (PList [])))).
Proof.
  apply (attaching_to_broken_config_raises 0 _
           (session_of [{| id := PStr "p"; type := PStr "pdf_upload";
                           position := xy 0 0; config := PList [];
                           status := pending; output := PNone |}])
           {| id := PStr "p"; type := PStr "pdf_upload"; position := xy 0 0;
              config := PList []; status := pending; output := PNone |}
           "a.pdf" 3);
    reflexivity.
Defined.

Lemma parse_options_not_blank (options_text : string) :
  Forall (fun o => o <> EmptyString) (parse_options options_text).
Proof.
  unfold parse_options. apply Forall_forall. intros o Ho.
  apply in_map_iff in Ho. destruct Ho as (x & <- & Hx).
  apply filter_In in Hx. destruct Hx as [_ Hx]. simpl in Hx.
  intros E. rewrite E in Hx. discriminate.
Qed.

(** X16.  The options of a selectbox are the lines of the options text that
    are not blank, none of them empty.  With at least one option the config
    holds them and a value that is one of them, and the element is ready;
    with none (an empty or all-blank text) the element is left as it was,
    config and status. *)
Theorem selectbox_value_is_an_option (e : WorkflowElement) (w : widgets) :
  type e = PStr "selectbox" ->
  Forall (fun o => o <> EmptyString) (parse_options (options_text w)) /\
  (parse_options (options_text w) = [] -> render_element_config e w = ret e) /\
  (parse_options (options_text w) <> [] ->
   exists v,
     In v (parse_options (options_text w)) /\
     render_element_config e w
     = ret (set_status
              (set_config e
                 (PDict [("label", PStr (label w));
                         ("options", PList (map PStr (parse_options (options_text w))));
                         ("value", PStr v)]))
              ready)).
Proof.
  intros Ht. split; [apply parse_options_not_blank |].
  unfold render_element_config. rewrite Ht. simpl.
  destruct (parse_options (options_text w)) as [| o options] eqn:E; split;
    try congruence; intros _.
  - reflexivity.
  - exists (nth (selected w) (o :: options) o). split; [| reflexivity].
    destruct (nth_in_or_default (selected w) (o :: options) o) as [H | H]; auto.
    rewrite H. now left.
Qed.

Lemma selectbox_value_is_an_option_witness :
  Forall (fun o => o <> EmptyString) (parse_options (options_text (form_with_text ""))) /\
  (parse_options (options_text (form_with_text "")) = [] ->
   render_element_config (element_with "s" "selectbox" [] pending) (form_with_text "")
   = ret (element_with "s" "selectbox" [] pending)) /\
  (parse_options (options_text (form_with_text "")) <> [] ->
   exists v,
     In v (parse_options (options_text (form_with_text ""))) /\
     render_element_config (element_with "s" "selectbox" [] pending) (form_with_text "")
     = ret (element_with "s" "selectbox"
              [("label", PStr "Enter text");
               ("options", PList (map PStr (parse_options (options_text (form_with_text "")))));
               ("value", PStr v)]
              ready)).
Proof.
  apply (selectbox_value_is_an_option
           (element_with "s" "selectbox" [] pending) (form_with_text "")).
  reflexivity.
Defined.

(** X17.  An element whose type has no form (loop, save_data, timer, or any
    type string the palette does not know) is left exactly as it is by a
    config update: no config is ever written for it, and its status only
    changes in a run. *)
Theorem element_without_form_is_left_alone
  (i : nat) (w : widgets) (s : session_state) (e : WorkflowElement) (t : string) :
  nth_error (workflow_elements s) i = Some e ->
  type e = PStr t ->
  in_strs (PStr t) ("pdf_upload" :: "selectbox" :: always_configured_types) = false ->
  update_config i w s = (s, None).
Proof.
  intros Hi Ht Hn.
  assert (Hr : render_element_config e w = ret e).
  { unfold in_strs in Hn. simpl in Hn.
    repeat (apply orb_false_elim in Hn; destruct Hn as [? Hn]).
    unfold render_element_config. rewrite Ht. simpl.
    repeat match goal with
      | E : (t =? _)%string = false |- _ => rewrite E; clear E
      end.
    reflexivity. }
  rewrite (update_config_done i w s e e Hi Hr).
  unfold with_elements. rewrite (replace_nth_same _ i e Hi).
  destruct s; reflexivity.
Qed.

Lemma element_without_form_is_left_alone_witness :
  update_config 0 (form_with_text "x")
    (session_of [element_with "l" "loop" [] pending])
  = (session_of [element_with "l" "loop" [] pending], None).
Proof.
  apply (element_without_form_is_left_alone 0 (form_with_text "x")
           (session_of [element_with "l" "loop" [] pending])
           (element_with "l" "loop" [] pending) "loop");
    reflexivity.
Defined.

(** ** Removing elements *)

Lemma remove_nth_firstn_skipn {A} (l : list A) :
  forall i, remove_nth i l = (firstn i l ++ skipn (S i) l)%list.
Proof.
  induction l as [| x r IH]; intros [| i]; simpl; auto.
  now rewrite IH.
Qed.

Lemma list_pop_in_range {A} (l : list A) (i : nat) (x : A) :
  nth_error l i = Some x ->
  list_pop l (Z.of_nat i) = ret (x, remove_nth i l).
Proof.
  intros H. unfold list_pop. cbv zeta.
  assert (Hlt : (i < List.length l)%nat) by (apply nth_error_Some; congruence).
  assert (E1 : (Z.of_nat i <? 0) = false) by (apply Z.ltb_ge; lia).
  assert (E2 : (Z.of_nat (List.length l) <=? Z.of_nat i) = false)
    by (apply Z.leb_gt; lia).
  rewrite E1. cbv iota. rewrite E1, E2. simpl. rewrite Nat2Z.id, H. reflexivity.
Qed.

Lemma list_pop_negative {A} (l : list A) (k : nat) :
  (1 <= k <= List.length l)%nat ->
  list_pop l (- Z.of_nat k) = list_pop l (Z.of_nat (List.length l - k)).
Proof.
  intros Hk. unfold list_pop. cbv zeta.
  assert (E1 : (- Z.of_nat k <? 0) = true) by (apply Z.ltb_lt; lia).
  assert (E2 : (Z.of_nat (List.length l - k) <? 0) = false)
    by (apply Z.ltb_ge; lia).
  rewrite E1, E2. cbv iota.
  replace (- Z.of_nat k + Z.of_nat (List.length l))
    with (Z.of_nat (List.length l - k)) by lia.
  assert (E3 : (Z.of_nat (List.length l) <=? Z.of_nat (List.length l - k)) = false)
    by (apply Z.leb_gt; lia).
  rewrite ?E2, E3. reflexivity.
Qed.

(** X18.  Removing at a position from 0 to N-1 takes out exactly the element
    there: the elements before it and after it stay, in their order and
    with their ids, and the stored results and the rest of the session are
    not touched. *)
Theorem delete_takes_out_one (s : session_state) (i : nat) (e : WorkflowElement) :
  nth_error (workflow_elements s) i = Some e ->
  delete_element (Z.of_nat i) s
  = (with_elements s
       (firstn i (workflow_elements s) ++ skipn (S i) (workflow_elements s))%list,
     None).
Proof.
  intros H. unfold delete_element.
  rewrite (list_pop_in_range _ i e H). simpl.
  rewrite remove_nth_firstn_skipn. reflexivity.
Qed.

Lemma delete_takes_out_one_witness :
  delete_element 1
    (session_of [element_with "a" "timer" [] pending;
                 element_with "b" "email" [] ready;
                 element_with "c" "chart" [] error])
  = (session_of [element_with "a" "timer" [] pending;
                 element_with "c" "chart" [] error], None).
Proof.
  apply (delete_takes_out_one
           (session_of [element_with "a" "timer" [] pending;
                        element_with "b" "email" [] ready;
                        element_with "c" "chart" [] error])
           1 (element_with "b" "email" [] ready)).
  reflexivity.
Defined.

(** X19.  A negative index counts from the end: for k from 1 to N, removing
    at -k is removing at N-k. *)
Theorem delete_counts_from_the_end (s : session_state) (k : nat) :
  (1 <= k <= List.length (workflow_elements s))%nat ->
  delete_element (- Z.of_nat k) s
  = delete_element (Z.of_nat (List.length (workflow_elements s) - k)) s.
Proof.
  intros Hk. unfold delete_element.
  rewrite (list_pop_negative _ k Hk). reflexivity.
Qed.

Lemma delete_counts_from_the_end_witness :
  delete_element (-2)
    (session_of [element_with "a" "timer" [] pending;
                 element_with "b" "email" [] ready;
                 element_with "c" "chart" [] error])
  = delete_element 1
      (session_of [element_with "a" "timer" [] pending;
                   element_with "b" "email" [] ready;
                   element_with "c" "chart" [] error]).
Proof.
  apply (delete_counts_from_the_end
           (session_of [element_with "a" "timer" [] pending;
                        element_with "b" "email" [] ready;
                        element_with "c" "chart" [] error]) 2).
  simpl. lia.
Defined.

Lemma remove_nth_last {A} (l : list A) (x : A) :
  remove_nth (List.length l) (l ++ [x]) = l.
Proof.
  induction l as [| y r IH]; simpl; [reflexivity |]. now rewrite IH.
Qed.

(** X20.  Adding an element and removing the last one again gives back the
    elements, the data and the results of before; only the identifier drawn
    for the element is spent. *)
Theorem add_then_delete_last (rt : runtime) (t : string) (s : session_state) :
  delete_element (-1) (add_element_to_workflow rt t s)
  = ({| workflow_elements := workflow_elements s;
        workflow_data := workflow_data s;
        execution_results := execution_results s;
        uuids_drawn := S (uuids_drawn s) |}, None).
Proof.
  rewrite add_element_to_workflow_spec.
  set (x := added rt (uuids_drawn s) (List.length (workflow_elements s)) t).
  unfold delete_element.
  cbn [workflow_elements workflow_data execution_results uuids_drawn].
  change (-1) with (- Z.of_nat 1).
  rewrite list_pop_negative by (rewrite length_app; simpl; lia).
  rewrite length_app.
  replace (List.length (workflow_elements s) + List.length [x] - 1)%nat
    with (List.length (workflow_elements s)) by (simpl; lia).
  rewrite (list_pop_in_range _ _ x)
    by (rewrite nth_error_app2, Nat.sub_diag by lia; reflexivity).
  rewrite remove_nth_last. reflexivity.
Qed.

Lemma remove_nth_ids (els : list WorkflowElement) :
  forall i e,
    NoDup (map id els) ->
    nth_error els i = Some e ->
    ~ In (id e) (map id (remove_nth i els)) /\ NoDup (map id (remove_nth i els)).
Proof.
  induction els as [| x r IH]; intros [| i] e Hn Hi; simpl in *;
    try discriminate; inversion Hn as [| ? ? Hx Hr]; subst.
  - inversion Hi; subst. auto.
  - destruct (IH i e Hr Hi) as [Hnot Hnd]. split.
    + intros [Heq | Hin]; [| tauto].
      apply Hx. rewrite Heq. apply in_map. eapply nth_error_In; eauto.
    + constructor; auto.
      intros Hin. apply Hx.
      rewrite remove_nth_firstn_skipn, map_app in Hin.
      apply in_app_or in Hin.
      rewrite <- (firstn_skipn i r), map_app. apply in_or_app.
      destruct Hin as [Hin | Hin]; [now left | right].
      rewrite <- (firstn_skipn 1 (skipn i r)), map_app.
      apply in_or_app. right. now rewrite skipn_skipn.
Qed.

(** X21.  Removing an element does not remove its result: after a run and
    the removal of an element, the stored results still hold the entry of
    the element that is gone, under an id that no element has any more, and
    the ids that are left are still pairwise distinct. *)
Theorem delete_keeps_the_result
  (rt : runtime) (s : session_state) (i : nat) (e : WorkflowElement) :
  string_ids (workflow_elements s) ->
  unique_ids (workflow_elements s) ->
  nth_error (workflow_elements s) i = Some e ->
  results_get (id e)
    (execution_results
       (fst (delete_element (Z.of_nat i) (fst (execute_workflow rt s)))))
  = Some (snd (verdict rt e)) /\
  ~ In (id e)
      (map id
         (workflow_elements
            (fst (delete_element (Z.of_nat i) (fst (execute_workflow rt s)))))) /\
  unique_ids
    (workflow_elements
       (fst (delete_element (Z.of_nat i) (fst (execute_workflow rt s))))).
Proof.
  intros Hs Hu Hi.
  assert (Hne : workflow_elements s <> [])
    by (intros E; rewrite E in Hi; destruct i; discriminate).
  rewrite (execute_workflow_stored rt s Hne (string_ids_hashable _ Hs)).
  assert (Hi' : nth_error (map (settle rt) (workflow_elements s)) i = Some (settle rt e))
    by now apply map_nth_error.
  unfold delete_element. simpl.
  rewrite (list_pop_in_range _ i _ Hi'). simpl.
  assert (Hids : map id (map (settle rt) (workflow_elements s))
                 = map id (workflow_elements s))
    by (rewrite map_map; reflexivity).
  assert (Hn : NoDup (map id (map (settle rt) (workflow_elements s))))
    by (rewrite Hids; exact Hu).
  destruct (remove_nth_ids _ i _ Hn Hi') as [Hnot Hnd].
  repeat split; auto.
  eapply record_get; eauto.
Qed.

Lemma delete_keeps_the_result_witness :
  results_get (PStr "b")
    (execution_results
       (fst (delete_element 1
               (fst (execute_workflow demo_runtime
                       (session_of [element_with "a" "timer" [] pending;
                                    element_with "b" "email" [] ready]))))))
  = Some (PStr "Email sent to undefined") /\
  ~ In (PStr "b")
      (map id
         (workflow_elements
            (fst (delete_element 1
                    (fst (execute_workflow demo_runtime
                            (session_of [element_with "a" "timer" [] pending;
                                         element_with "b" "email" [] ready]))))))) /\
  unique_ids
    (workflow_elements
       (fst (delete_element 1
               (fst (execute_workflow demo_runtime
                       (session_of [element_with "a" "timer" [] pending;
                                    element_with "b" "email" [] ready])))))).
Proof.
  apply (delete_keeps_the_result demo_runtime
           (session_of [element_with "a" "timer" [] pending;
                        element_with "b" "email" [] ready])
           1 (element_with "b" "email" [] ready)).
  - reflexivity.
  - unfold unique_ids. simpl. repeat constructor; simpl; intuition discriminate.
  - reflexivity.
Defined.

(** ** Importing *)

Lemma load_element_loads_as (rt : runtime) (x : pyval) (n : nat) :
  well_formed_item x ->
  exists e n', load_element rt x n = ret (e, n') /\ loads_as rt x e.
Proof.
  intros (ed & t & i & -> & Ht & Hi).
  rewrite (load_element_dict rt ed n t i Ht Hi).
  eexists. eexists. split; [reflexivity |].
  exists ed, t, i. repeat split; auto. simpl.
  destruct (truthy i); eauto.
Qed.

Lemma load_elements_well_formed (rt : runtime) (items : list pyval) :
  forall acc n,
    Forall well_formed_item items ->
    exists els n',
      load_elements rt items acc n = ((acc ++ els)%list, n', None) /\
      Forall2 (loads_as rt) items els.
Proof.
  induction items as [| x rest IH]; intros acc n H; simpl.
  - exists [], n. rewrite app_nil_r. auto.
  - inversion H as [| ? ? Hx Hrest]; subst.
    destruct (load_element_loads_as rt x n Hx) as (e & n1 & Hl & Hla).
    rewrite Hl. simpl.
    destruct (IH (acc ++ [e])%list n1 Hrest) as (els & n' & Hls & Hall).
    exists (e :: els), n'. rewrite Hls, <- app_assoc. auto.
Qed.

Lemma load_element_loaded
  (rt : runtime) (x : pyval) (n n' : nat) (e : WorkflowElement) :
  load_element rt x n = ret (e, n') -> loads_as rt x e.
Proof.
  intros H.
  destruct (load_element_inv rt _ _ _ _ H) as (ed & t & i & -> & Ht & Hi).
  rewrite (load_element_dict rt ed n t i Ht Hi) in H.
  injection H as <- _.
  exists ed, t, i. repeat split; auto. simpl.
  destruct (truthy i); eauto.
Qed.

(** The loop stops at the first item that does not load, with the elements
    made of the items before it appended, and with nothing else. *)
Lemma load_elements_first_failure
  (rt : runtime) (bad : pyval) (post : list pyval) :
  (forall drawn, exists ex, load_element rt bad drawn = raise ex) ->
  forall pre acc drawn,
  exists ex k x els drawn',
    (k <= List.length pre)%nat /\
    nth_error (pre ++ bad :: post) k = Some x /\
    load_elements rt (firstn k pre) acc drawn = ((acc ++ els)%list, drawn', None) /\
    Forall2 (loads_as rt) (firstn k pre) els /\
    load_element rt x drawn' = raise ex /\
    load_elements rt (pre ++ bad :: post) acc drawn
    = ((acc ++ els)%list, drawn', Some ex) /\
    (Forall well_formed_item pre -> k = List.length pre).
Proof.
  intros Hbad. induction pre as [| p pre IH]; intros acc drawn.
  - destruct (Hbad drawn) as [ex Hex].
    exists ex, 0%nat, bad, [], drawn. simpl. rewrite Hex, app_nil_r.
    repeat split; auto.
  - destruct (load_element rt p drawn) as [ex | [e drawn1]] eqn:E.
    + exists ex, 0%nat, p, [], drawn. simpl. rewrite E, app_nil_r.
      repeat split; auto using Nat.le_0_l.
      intros Hw. inversion Hw as [| ? ? Hp _]; subst.
      destruct (load_element_loads_as rt p drawn Hp) as (e & n' & Hl & _).
      rewrite Hl in E. discriminate.
    + destruct (IH (acc ++ [e])%list drawn1)
        as (ex & k & x & els & drawn' & Hk & Hx & H1 & Hall & Hex & H2 & Hw).
      exists ex, (S k), x, (e :: els), drawn'. simpl. rewrite E.
      rewrite <- app_assoc in H1, H2. simpl in H1, H2.
      repeat split; auto using le_n_S.
      * constructor; auto. eapply load_element_loaded; eauto.
      * intros Hwf. inversion Hwf; subst. f_equal. auto.
Qed.

(** C8.  When an element of the imported document lacks [id] or [type], the
    import fails: the exception is caught and reported, and the session is
    left, not with the sequence it had, but with the elements made of the
    items before the first one that does not load, item [k], and with no
    other; the exception reported is the one item [k] raises.  When the
    items before the one lacking the field all hold [type] and [id], item
    [k] is that one, every item before it has become an element, and the
    exception is the [KeyError] of the missing field. *)
Theorem import_missing_field
  (rt : runtime) (s : session_state) (d ed : pydict) (pre post : list pyval) :
  lookup "elements" d = Some (PList (pre ++ PDict ed :: post)) ->
  lookup "id" ed = None \/ lookup "type" ed = None ->
  exists ex k x els drawn,
    (k <= List.length pre)%nat /\
    nth_error (pre ++ PDict ed :: post) k = Some x /\
    load_elements rt (firstn k pre) [] (uuids_drawn s) = (els, drawn, None) /\
    Forall2 (loads_as rt) (firstn k pre) els /\
    load_element rt x drawn = raise ex /\
    import_workflow rt (Some (PDict d)) s
    = ({| workflow_elements := els;
          workflow_data := workflow_data s;
          execution_results := execution_results s;
          uuids_drawn := drawn |},
       ImportFailed ex) /\
    (Forall well_formed_item pre -> k = List.length pre) /\
    (k = List.length pre -> ex = KeyError "type" \/ ex = KeyError "id").
Proof.
  intros He Hm.
  assert (Hbad : forall drawn, exists ex, load_element rt (PDict ed) drawn = raise ex).
  { intros drawn.
    destruct (load_element_missing_field rt ed drawn Hm) as [H | H]; eauto. }
  destruct (load_elements_first_failure rt (PDict ed) post Hbad pre [] (uuids_drawn s))
    as (ex & k & x & els & drawn & Hk & Hx & H1 & Hall & Hex & H2 & Hw).
  simpl in H1, H2.
  exists ex, k, x, els, drawn. repeat split; auto.
  - unfold import_workflow. simpl. rewrite He. simpl. rewrite H2. reflexivity.
  - intros Hlen. subst k.
    rewrite nth_error_app2, Nat.sub_diag in Hx by auto. simpl in Hx.
    injection Hx as <-.
    destruct (load_element_missing_field rt ed drawn Hm) as [H | H];
      rewrite H in Hex; inversion Hex; auto.
Qed.

Lemma import_missing_field_witness :
  exists ex k x els drawn,
    (k <= 1)%nat /\
    nth_error
      [PDict [("id", PStr "a"); ("type", PStr "timer")];
       PDict [("type", PStr "email")]] k = Some x /\
    load_elements demo_runtime
      (firstn k [PDict [("id", PStr "a"); ("type", PStr "timer")]]) [] 0
    = (els, drawn, None) /\
    Forall2 (loads_as demo_runtime)
      (firstn k [PDict [("id", PStr "a"); ("type", PStr "timer")]]) els /\
    load_element demo_runtime x drawn = raise ex /\
    import_workflow demo_runtime
      (Some (PDict [("elements",
                     PList [PDict [("id", PStr "a"); ("type", PStr "timer")];
                            PDict [("type", PStr "email")]])]))
      (session_of [element_with "old" "chart" [] ready])
    = ({| workflow_elements := els; workflow_data := [];
          execution_results := []; uuids_drawn := drawn |},
       ImportFailed ex) /\
    (Forall well_formed_item [PDict [("id", PStr "a"); ("type", PStr "timer")]] ->
     k = 1%nat) /\
    (k = 1%nat -> ex = KeyError "type" \/ ex = KeyError "id").
Proof.
  apply (import_missing_field demo_runtime
           (session_of [element_with "old" "chart" [] ready])
           [("elements",
             PList [PDict [("id", PStr "a"); ("type", PStr "timer")];
                    PDict [("type", PStr "email")]])]
           [("type", PStr "email")]
           [PDict [("id", PStr "a"); ("type", PStr "timer")]] []).
  - reflexivity.
  - left. reflexivity.
Defined.

(** The same import, spelled out: the element read before the failure has
    replaced the sequence the session had. *)
Example import_is_not_rolled_back (rt : runtime) :
  import_workflow rt
    (Some (PDict [("elements",
                   PList [PDict [("id", PStr "a"); ("type", PStr "timer")];
                          PDict [("type", PStr "email")]])]))
    (session_of [element_with "old" "chart" [] ready])
  = (session_of [element_with "a" "timer" [] pending],
     ImportFailed (KeyError "id")).
Proof. reflexivity. Qed.

(** An item before the one lacking the field may fail first: the import
    then stops there, with the exception of that item. *)
Example import_stops_at_first_failure (rt : runtime) :
  import_workflow rt
    (Some (PDict [("elements",
                   PList [PDict [("id", PStr "a"); ("type", PStr "timer")];
                          PInt 3;
                          PDict [("type", PStr "email")]])]))
    (session_of [element_with "old" "chart" [] ready])
  = (session_of [element_with "a" "timer" [] pending],
     ImportFailed (TypeError (NotSubscriptable (PInt 3)))).
Proof. reflexivity. Qed.

(** X22.  When every item of the imported list is a dict that holds [type]
    and [id], the import succeeds and reports as many elements as there are
    items.  Element by element, in the order of the list: the type is the
    one given, unchecked; a truthy id is kept and a falsy one (empty, null,
    zero) is replaced by an identifier drawn from [uuid4]; and a missing
    position, config, status or output is x = 0, y = 0, the empty dict,
    pending, and None. *)
Theorem import_of_well_formed
  (rt : runtime) (s : session_state) (d : pydict) (items : list pyval) :
  lookup "elements" d = Some (PList items) ->
  Forall well_formed_item items ->
  exists els drawn,
    import_workflow rt (Some (PDict d)) s
    = ({| workflow_elements := els;
          workflow_data := workflow_data s;
          execution_results := execution_results s;
          uuids_drawn := drawn |},
       Imported (List.length items)) /\
    Forall2 (loads_as rt) items els.
Proof.
  intros He Hw.
  destruct (load_elements_well_formed rt items [] (uuids_drawn s) Hw)
    as (els & drawn & Hl & Hall).
  exists els, drawn. split; [| exact Hall].
  unfold import_workflow. simpl. rewrite He. simpl. rewrite Hl. simpl.
  now rewrite (Forall2_length Hall).
Qed.

Lemma import_of_well_formed_witness :
  exists els drawn,
    import_workflow demo_runtime
      (Some (PDict [("elements",
                     PList [PDict [("id", PStr ""); ("type", PStr "email")]])]))
      (session_of [element_with "old" "chart" [] ready])
    = ({| workflow_elements := els; workflow_data := [];
          execution_results := []; uuids_drawn := drawn |},
       Imported 1) /\
    Forall2 (loads_as demo_runtime)
      [PDict [("id", PStr ""); ("type", PStr "email")]] els.
Proof.
  apply (import_of_well_formed demo_runtime
           (session_of [element_with "old" "chart" [] ready])
           [("elements", PList [PDict [("id", PStr ""); ("type", PStr "email")]])]
           [PDict [("id", PStr ""); ("type", PStr "email")]]).
  - reflexivity.
  - repeat constructor.
    exists [("id", PStr ""); ("type", PStr "email")], (PStr "email"), (PStr "").
    repeat split.
Defined.

(** X23.  A file that parses but is no JSON object (a list, a number, a
    string, null) makes the import fail, and a JSON object without
    "elements" makes it succeed with zero elements: either way the
    elements the session had are gone, since the list is emptied before the
    document is looked at; the stored results are kept. *)
Theorem import_without_elements_empties
  (rt : runtime) (doc : pyval) (s : session_state) :
  is_dict doc = false \/ (exists d, doc = PDict d /\ lookup "elements" d = None) ->
  import_workflow rt (Some doc) s
  = (with_elements s [],
     if is_dict doc then Imported 0 else ImportFailed (AttributeError doc "get")).
Proof.
  intros [H | (d & -> & H)].
  - unfold import_workflow.
    destruct doc; try discriminate; reflexivity.
  - unfold import_workflow. simpl. rewrite H. reflexivity.
Qed.

Lemma import_without_elements_empties_witness :
  import_workflow demo_runtime (Some (PList []))
    (session_of [element_with "old" "chart" [] ready])
  = (session_of [], ImportFailed (AttributeError (PList []) "get")).
Proof.
  apply (import_without_elements_empties demo_runtime (PList [])
           (session_of [element_with "old" "chart" [] ready])).
  left. reflexivity.
Defined.

(** X24.  Whatever the imported document holds, every element the session
    has after the import of a file that parses has a truthy id, provided
    [uuid4] never yields the empty string: no element ends up with an
    empty, null or zero id. *)
Theorem imported_ids_are_truthy
  (rt : runtime) (doc : pyval) (s : session_state) :
  (forall k, uuid4 rt k <> EmptyString) ->
  Forall (fun e => truthy (id e) = true)
    (workflow_elements (fst (import_workflow rt (Some doc) s))).
Proof.
  intros Hu. rewrite import_workflow_elements.
  destruct (v <- py_get doc "elements" (PList []);; py_iter v) as [ex | items];
    [constructor |].
  apply (load_elements_Forall rt _ (fun _ => True)); auto.
  - intros x n e n' _ Hl. eapply load_element_id_truthy; eauto.
  - apply Forall_forall. auto.
Qed.

Lemma imported_ids_are_truthy_witness :
  Forall (fun e => truthy (id e) = true)
    (workflow_elements
       (fst (import_workflow demo_runtime
               (Some (PDict [("elements",
                              PList [PDict [("id", PNone); ("type", PInt 3)]])]))
               initial_state))).
Proof.
  apply (imported_ids_are_truthy demo_runtime
           (PDict [("elements", PList [PDict [("id", PNone); ("type", PInt 3)]])])
           initial_state).
  intros k. simpl. discriminate.
Defined.

(** ** The workflows a user builds *)

Lemma map_remove_nth {A B} (f : A -> B) (l : list A) :
  forall n, map f (remove_nth n l) = remove_nth n (map f l).
Proof.
  induction l as [| x r IH]; intros [| n]; simpl; auto.
  now rewrite IH.
Qed.

Lemma NoDup_remove_nth {A} (l : list A) :
  forall n, NoDup l -> NoDup (remove_nth n l).
Proof.
  induction l as [| x r IH]; intros [| n] H; simpl; auto;
    inversion H as [| ? ? Hx Hr]; subst; auto.
  constructor; auto.
  intros Hin. apply Hx.
  rewrite remove_nth_firstn_skipn in Hin. apply in_app_or in Hin.
  rewrite <- (firstn_skipn n r). apply in_or_app.
  destruct Hin as [Hin | Hin]; [now left | right].
  rewrite <- (firstn_skipn 1 (skipn n r)). apply in_or_app. right.
  now rewrite skipn_skipn.
Qed.

Lemma delete_element_cases (i : Z) (s : session_state) :
  uuids_drawn (fst (delete_element i s)) = uuids_drawn s /\
  (workflow_elements (fst (delete_element i s)) = workflow_elements s \/
   exists n,
     workflow_elements (fst (delete_element i s))
     = remove_nth n (workflow_elements s)).
Proof.
  unfold delete_element, list_pop. cbv zeta.
  destruct (_ || _); [destruct (fits_ssize_t i); simpl; auto |].
  destruct (nth_error _ _); simpl; eauto.
Qed.

Lemma update_config_ids (i : nat) (w : widgets) (s : session_state) :
  uuids_drawn (fst (update_config i w s)) = uuids_drawn s /\
  map id (workflow_elements (fst (update_config i w s)))
  = map id (workflow_elements s).
Proof.
  unfold update_config.
  destruct (nth_error (workflow_elements s) i) as [e |] eqn:E; simpl; auto.
  destruct (render_element_config e w) as [ex | e'] eqn:R; simpl; auto.
  apply render_element_config_inv in R. destruct R as (Hid & _).
  split; [reflexivity |]. now apply (map_replace_nth id e' _ i e).
Qed.

Lemma execute_workflow_ids (rt : runtime) (s : session_state) :
  uuids_drawn (fst (execute_workflow rt s)) = uuids_drawn s /\
  map id (workflow_elements (fst (execute_workflow rt s)))
  = map id (workflow_elements s).
Proof.
  split.
  - rewrite execute_workflow_fst. unfold run_and_store.
    destruct (workflow_elements s); [reflexivity |].
    destruct (run_elements rt [] _) as [els [ex | res]]; reflexivity.
  - pose proof (execute_workflow_frame rt s) as Hf.
    apply (f_equal (map (fun x => fst (fst (fst (fst x)))))) in Hf.
    rewrite !map_map in Hf. exact Hf.
Qed.

(** The ids of a built session are identifiers drawn so far, each once. *)
Lemma built_ids (rt : runtime) (s : session_state) :
  built rt s ->
  exists ks,
    map id (workflow_elements s) = map (fun k => PStr (uuid4 rt k)) ks /\
    NoDup ks /\ Forall (fun k => (k < uuids_drawn s)%nat) ks.
Proof.
  intros Hb.
  induction Hb as [| t s Hb IH | i s Hb IH | i w s Hb IH | s Hb IH | s Hb IH].
  - exists []. repeat split; constructor.
  - destruct IH as (ks & Hids & Hnd & Hlt).
    exists (ks ++ [uuids_drawn s])%list.
    rewrite add_element_to_workflow_spec. simpl.
    rewrite !map_app, Hids. simpl. repeat split.
    + apply NoDup_app; auto.
      * repeat constructor. auto.
      * intros k Hk [<- | []]. rewrite Forall_forall in Hlt.
        specialize (Hlt _ Hk). lia.
    + apply Forall_app. split.
      * eapply Forall_impl; [| exact Hlt]. simpl. intros; lia.
      * repeat constructor.
  - destruct IH as (ks & Hids & Hnd & Hlt).
    destruct (delete_element_cases i s) as [Hd [He | [n He]]]; rewrite Hd, He.
    + exists ks. auto.
    + exists (remove_nth n ks). rewrite !map_remove_nth, Hids.
      repeat split; auto using NoDup_remove_nth, Forall_remove_nth.
  - destruct IH as (ks & Hids & Hnd & Hlt).
    destruct (update_config_ids i w s) as [Hd He]. rewrite Hd, He. eauto.
  - destruct IH as (ks & Hids & Hnd & Hlt).
    destruct (execute_workflow_ids rt s) as [Hd He]. rewrite Hd, He. eauto.
  - exists []. repeat split; constructor.
Qed.

Lemma render_config_stays_dict (e e' : WorkflowElement) (w : widgets) :
  is_dict (config e) = true ->
  render_element_config e w = ret e' ->
  is_dict (config e') = true.
Proof.
  unfold render_element_config. intros Hd H.
  destruct (str_eq (type e) "pdf_upload").
  { destruct (uploaded_file w) as [[name size] |].
    - destruct (config_assign e "filename" (PStr name)) as [ex | e1] eqn:E1;
        [discriminate |].
      apply config_assign_inv in E1. destruct E1 as (d1 & Hc1 & ->).
      simpl in H. inversion H. subst e'. reflexivity.
    - inversion H. now subst e'. }
  split_render H; inversion H; subst e'; simpl; auto.
Qed.

Lemma Forall_of_frame (P : pyval * pyval * pyval * pyval * pyval -> Prop)
  (l l' : list WorkflowElement) :
  map frame l' = map frame l ->
  Forall (fun e => P (frame e)) l -> Forall (fun e => P (frame e)) l'.
Proof.
  intros Hf H.
  apply (Forall_map frame P) in H. rewrite <- Hf in H.
  now apply (Forall_map frame P).
Qed.

(** X25.  A workflow built with the buttons and forms alone (elements added
    and removed, configs updated, runs, clearing, but no import) always has
    pairwise-distinct string ids, string types, dict configs and statuses
    among the four, provided [uuid4] never repeats an identifier: such a
    workflow meets what the theorems on a run assume. *)
Theorem built_sessions_are_well_formed (rt : runtime) (s : session_state) :
  (forall i j, uuid4 rt i = uuid4 rt j -> i = j) ->
  built rt s ->
  string_ids (workflow_elements s) /\
  unique_ids (workflow_elements s) /\
  statuses_valid s /\
  Forall (fun e => is_str (type e) = true /\ is_dict (config e) = true)
    (workflow_elements s).
Proof.
  intros Hinj Hb.
  destruct (built_ids rt s Hb) as (ks & Hids & Hnd & _).
  split; [| split].
  - unfold string_ids. apply forallb_forall. intros e He.
    apply (in_map id) in He. rewrite Hids in He.
    apply in_map_iff in He. destruct He as (k & <- & _). reflexivity.
  - unfold unique_ids. rewrite Hids.
    apply Injective_map_NoDup; auto.
    intros a b H. inversion H. auto.
  - clear ks Hids Hnd. unfold statuses_valid.
    induction Hb as [| t s Hb IH | i s Hb IH | i w s Hb IH | s Hb IH | s Hb IH].
    + split; constructor.
    + destruct IH as [Hv Hc]. rewrite add_element_to_workflow_spec. simpl.
      split; apply Forall_app; split; auto; repeat constructor.
    + destruct IH as [Hv Hc]. split; now apply delete_element_Forall.
    + destruct IH as [Hv Hc]. split; apply update_config_Forall; auto.
      * intros e e' He Hr. apply render_element_config_inv in Hr.
        destruct Hr as (_ & _ & _ & _ & [-> | [-> | ->]]);
          auto using valid_ready, valid_pending.
      * intros e e' [Ht Hd] Hr. split.
        -- apply render_element_config_inv in Hr.
           destruct Hr as (_ & -> & _). exact Ht.
        -- eapply render_config_stays_dict; eauto.
    + destruct IH as [Hv Hc]. split.
      * rewrite execute_workflow_fst. unfold run_and_store.
        destruct (workflow_elements s) as [| e rest] eqn:E.
        -- simpl. rewrite E. constructor.
        -- pose proof (run_elements_valid rt (e :: rest) [] Hv) as Hr.
           destruct (run_elements rt [] (e :: rest)) as [els [ex | res]];
             simpl in *; exact Hr.
      * apply (Forall_of_frame
                 (fun f => is_str (snd (fst (fst (fst f)))) = true /\
                           is_dict (snd (fst f)) = true)
                 (workflow_elements s)); auto.
        apply execute_workflow_frame.
    + split; constructor.
Qed.

Lemma built_sessions_are_well_formed_witness :
  string_ids
    (workflow_elements
       (fst (execute_workflow demo_runtime
               (add_all demo_runtime ["email"; "loop"] initial_state)))) /\
  unique_ids
    (workflow_elements
       (fst (execute_workflow demo_runtime
               (add_all demo_runtime ["email"; "loop"] initial_state)))) /\
  statuses_valid
    (fst (execute_workflow demo_runtime
            (add_all demo_runtime ["email"; "loop"] initial_state))) /\
  Forall (fun e => is_str (type e) = true /\ is_dict (config e) = true)
    (workflow_elements
       (fst (execute_workflow demo_runtime
               (add_all demo_runtime ["email"; "loop"] initial_state)))).
Proof.
  apply (built_sessions_are_well_formed demo_runtime
           (fst (execute_workflow demo_runtime
                   (add_all demo_runtime ["email"; "loop"] initial_state)))).
  - intros i j H. simpl in H. inversion H. now apply tally_injective.
  - apply built_run. unfold add_all. simpl.
    apply built_add. apply built_add. apply built_initial.
Defined.

(** ** The metrics, the indicator, the names and the report *)

Lemma count_by_status (els : list WorkflowElement) :
  Z.of_nat (List.length els)
  = count_status "ready" els + count_status "error" els
    + Z.of_nat
        (List.length
           (filter (fun e => negb (str_eq (status e) "ready")
                             && negb (str_eq (status e) "error")) els)).
Proof.
  unfold count_status.
  induction els as [| e rest IH]; [reflexivity |].
  assert (Hex : str_eq (status e) "ready" && str_eq (status e) "error" = false).
  { destruct (status e) as [| b | z | f | k | l | d]; simpl; auto.
    destruct (String.eqb_spec k "ready") as [-> | Hr]; reflexivity. }
  cbn [filter].
  destruct (str_eq (status e) "ready"), (str_eq (status e) "error");
    simpl in Hex; try discriminate; cbn [negb andb List.length]; lia.
Qed.

(** X26.  The Pending metric is not a count of pending elements: it is what
    is left of the total after the ready and the error ones, so it counts
    every element that is neither ready nor in error (pending, processing,
    or a status an import brought).  The three metrics add up to the total
    and none is negative. *)
Theorem pending_metric_counts_the_rest (s : session_state) (m : metrics) :
  statistics s = Some m ->
  pending_elements m
  = Z.of_nat
      (List.length
         (filter (fun e => negb (str_eq (status e) "ready")
                           && negb (str_eq (status e) "error"))
            (workflow_elements s))) /\
  ready_elements m + pending_elements m + error_elements m = total_elements m /\
  0 <= ready_elements m /\ 0 <= pending_elements m /\ 0 <= error_elements m.
Proof.
  unfold statistics. intros H.
  pose proof (count_by_status (workflow_elements s)) as Hc.
  destruct (workflow_elements s) as [| e rest]; [discriminate |].
  remember (e :: rest) as els eqn:E. clear E.
  injection H as <-.
  cbn [pending_elements ready_elements error_elements total_elements].
  unfold count_status in *. repeat split; lia.
Qed.

Lemma pending_metric_counts_the_rest_witness :
  pending_elements
    {| total_elements := 3; ready_elements := 1; pending_elements := 2;
       error_elements := 0 |}
  = Z.of_nat
      (List.length
         (filter (fun e => negb (str_eq (status e) "ready")
                           && negb (str_eq (status e) "error"))
            (workflow_elements
               (session_of [element_with "a" "timer" [] ready;
                            element_with "b" "email" [] processing;
                            element_with "c" "chart" [] (PStr "done")])))) /\
  1 + 2 + 0 = 3 /\ 0 <= 1 /\ 0 <= 2 /\ 0 <= 0.
Proof.
  apply (pending_metric_counts_the_rest
           (session_of [element_with "a" "timer" [] ready;
                        element_with "b" "email" [] processing;
                        element_with "c" "chart" [] (PStr "done")])
           {| total_elements := 3; ready_elements := 1; pending_elements := 2;
              error_elements := 0 |}).
  reflexivity.
Defined.

Lemma terminal_not_the_rest (els : list WorkflowElement) :
  Forall terminal els ->
  filter (fun e => negb (str_eq (status e) "ready")
                   && negb (str_eq (status e) "error")) els = [].
Proof.
  induction 1 as [| e rest [He | He] _ IH]; simpl; auto; rewrite He; simpl; auto.
Qed.

Lemma filter_length_pos {A} (f : A -> bool) (l : list A) (x : A) :
  In x l -> f x = true -> (1 <= List.length (filter f l))%nat.
Proof.
  induction l as [| y r IH]; intros Hin Hx; [contradiction |].
  simpl. destruct Hin as [-> | Hin].
  - rewrite Hx. simpl. lia.
  - destruct (f y); simpl; [lia | auto].
Qed.

Lemma statistics_pending (s : session_state) (m : metrics) :
  statistics s = Some m ->
  pending_elements m
  = Z.of_nat
      (List.length
         (filter (fun e => negb (str_eq (status e) "ready")
                           && negb (str_eq (status e) "error"))
            (workflow_elements s))).
Proof.
  unfold statistics. intros H.
  pose proof (count_by_status (workflow_elements s)) as Hc.
  destruct (workflow_elements s) as [| e rest]; [discriminate |].
  assert (Hm : pending_elements m
               = Z.of_nat (List.length (e :: rest))
                 - count_status "ready" (e :: rest)
                 - count_status "error" (e :: rest)).
  { apply (f_equal (fun o => match o with
                             | Some x => pending_elements x
                             | None => 0
                             end)) in H.
    symmetry. exact H. }
  rewrite Hm. lia.
Qed.

(** X27.  The statuses a run leaves do not last on the page: the forms are
    drawn again before the metrics are computed, and the form of a
    conditional, an api_call or an email element sets the status from its
    widgets alone.  Whatever the run made of such an element, after the
    config update it is ready when the widgets are filled and pending when
    they are not; and as long as the element is as that update left it,
    whatever becomes of the others, the Pending metric is not zero. *)
Theorem form_decides_status_after_run
  (rt : runtime) (s : session_state) (i : nat) (w : widgets) (e : WorkflowElement) :
  hashable_ids (workflow_elements s) ->
  nth_error (workflow_elements s) i = Some e ->
  in_strs (type e) ["conditional"; "api_call"; "email"] = true ->
  exists e',
    nth_error
      (workflow_elements (fst (update_config i w (fst (execute_workflow rt s))))) i
    = Some e' /\
    status e' = (if widgets_complete (type e) w then ready else pending) /\
    (widgets_complete (type e) w = false ->
     forall s' m,
       nth_error (workflow_elements s') i = Some e' ->
       statistics s' = Some m ->
       1 <= pending_elements m).
Proof.
  intros Hs Hi Ht.
  pose proof (run_settles rt s i e Hs Hi) as Hrun.
  assert (Hr : exists e',
             render_element_config (settle rt e) w = ret e' /\
             status e' = (if widgets_complete (type e) w then ready else pending)).
  { apply in_strs_inv in Ht. destruct Ht as (t & Ht & Hin).
    unfold render_element_config, widgets_complete. simpl type. rewrite Ht.
    simpl in Hin. destruct Hin as [<- | [<- | [<- | []]]]; simpl;
      eexists; split; reflexivity. }
  destruct Hr as (e' & Hr & Hst).
  rewrite (update_config_done i w _ _ e' Hrun Hr). cbn [fst].
  assert (Hn : nth_error
                 (replace_nth i e' (workflow_elements (fst (execute_workflow rt s)))) i
               = Some e') by (eapply nth_error_replace_nth; eauto).
  exists e'. split; [exact Hn |]. split; [exact Hst |].
  intros Hw s' m Hi' Hm. rewrite Hw in Hst.
  rewrite (statistics_pending _ m Hm).
  assert (Hp : (1 <= List.length
                       (filter (fun x => negb (str_eq (status x) "ready")
                                         && negb (str_eq (status x) "error"))
                          (workflow_elements s')))%nat).
  { apply (filter_length_pos _ _ e').
    - eapply nth_error_In; eauto.
    - rewrite Hst. reflexivity. }
  lia.
Qed.

Lemma form_decides_status_after_run_witness :
  exists e',
    nth_error
      (workflow_elements
         (fst (update_config 0 (form_with_text "")
                 (fst (execute_workflow demo_runtime
                         (session_of [element_with "m" "email" [] pending]))))))
      0
    = Some e' /\
    status e' = pending /\
    (widgets_complete (PStr "email") (form_with_text "") = false ->
     forall s' m,
       nth_error (workflow_elements s') 0 = Some e' ->
       statistics s' = Some m ->
       1 <= pending_elements m).
Proof.
  apply (form_decides_status_after_run demo_runtime
           (session_of [element_with "m" "email" [] pending])
           0 (form_with_text "") (element_with "m" "email" [] pending));
    reflexivity.
Defined.

(** The page after a run of one email element whose form is empty: the run
    left it ready, the form puts it back to pending, and the metrics show
    one pending element and none ready. *)
Example metrics_after_run_and_form :
  map status
    (workflow_elements
       (fst (execute_workflow demo_runtime
               (session_of [element_with "m" "email" [] pending]))))
  = [ready] /\
  statistics
    (fst (update_config 0 (form_with_text "")
            (fst (execute_workflow demo_runtime
                    (session_of [element_with "m" "email" [] pending])))))
  = Some {| total_elements := 1; ready_elements := 0; pending_elements := 1;
            error_elements := 0 |}.
Proof. split; reflexivity. Qed.


(** X28.  The indicator of an element is drawn in one of the four classes;
    a status that is none of the four values, as an import can leave, is
    drawn as pending, and one of the four is drawn in its own class.  Only
    a status that cannot be a key (a list, a dict) makes the lookup raise. *)
Theorem indicator_falls_back_to_pending (st : pyval) :
  hashable st = true ->
  exists c,
    status_class st = ret c /\
    In c (map snd status_colors) /\
    (~ valid_status st -> c = "status-pending") /\
    (forall s, st = PStr s -> valid_status st -> c = "status-" ++ s).
Proof.
  intros Hh. unfold valid_status, pending, ready, processing, error.
  destruct st as [| b | z | f | k | l | d]; try discriminate;
    try (unfold status_class; rewrite ?Hh; eexists; split; [reflexivity |];
         split; [simpl; auto |];
         split; [reflexivity | intros s Hs; discriminate]).
  unfold status_class, status_colors. cbn [table_get map snd].
  destruct (String.eqb_spec "pending" k) as [<- | H1].
  { eexists. split; [reflexivity |]. split; [simpl; auto |].
    split; [reflexivity |]. intros s Hs _. inversion Hs. reflexivity. }
  destruct (String.eqb_spec "ready" k) as [<- | H2].
  { eexists. split; [reflexivity |]. split; [simpl; auto |].
    split; [intros Hn; exfalso; apply Hn; auto |].
    intros s Hs _. inversion Hs. reflexivity. }
  destruct (String.eqb_spec "processing" k) as [<- | H3].
  { eexists. split; [reflexivity |]. split; [simpl; auto |].
    split; [intros Hn; exfalso; apply Hn; auto |].
    intros s Hs _. inversion Hs. reflexivity. }
  destruct (String.eqb_spec "error" k) as [<- | H4].
  { eexists. split; [reflexivity |]. split; [simpl; auto |].
    split; [intros Hn; exfalso; apply Hn; auto |].
    intros s Hs _. inversion Hs. reflexivity. }
  eexists. split; [reflexivity |]. split; [simpl; auto |].
  split; [reflexivity |].
  intros s Hs [Hv | [Hv | [Hv | Hv]]]; inversion Hv; congruence.
Qed.

Lemma indicator_falls_back_to_pending_witness :
  exists c,
    status_class (PStr "done") = ret c /\
    In c (map snd status_colors) /\
    (~ valid_status (PStr "done") -> c = "status-pending") /\
    (forall s, PStr "done" = PStr s -> valid_status (PStr "done") -> c = "status-" ++ s).
Proof.
  apply (indicator_falls_back_to_pending (PStr "done")). reflexivity.
Defined.

(** X29.  Every type the palette offers has a display name of its own in
    [names]: [title] is only ever used for a type that came with an import.
    A type that is no string has no display name at all: asking for it
    raises. *)
Theorem palette_types_have_names (t : string) :
  In t element_types ->
  exists n,
    table_get t names = Some n /\
    forall title, get_element_display_name title (PStr t) = ret n.
Proof.
  unfold element_types. intros H. simpl in H.
  repeat (destruct H as [<- | H];
          [eexists; split; [reflexivity | intros title; reflexivity] |]).
  contradiction.
Qed.

Lemma palette_types_have_names_witness :
  exists n,
    table_get "save_data" names = Some n /\
    forall title, get_element_display_name title (PStr "save_data") = ret n.
Proof.
  apply (palette_types_have_names "save_data").
  unfold element_types. simpl. tauto.
Defined.

Lemma record_all (rt : runtime) (els : list WorkflowElement) :
  forall res,
    string_ids els ->
    NoDup (map fst res ++ map id els)%list ->
    fold_left (record rt) els res
    = (res ++ map (fun e => (id e, snd (verdict rt e))) els)%list.
Proof.
  induction els as [| e rest IH]; intros res Hs Hn; simpl.
  - now rewrite app_nil_r.
  - apply string_ids_inv in Hs. destruct Hs as [[a Ha] Hs].
    simpl in Hn. rewrite Ha in Hn.
    pose proof (NoDup_remove_2 _ _ _ Hn) as Hnotin.
    unfold record at 2. rewrite Ha.
    rewrite results_set_fresh
      by (intros Hin; apply Hnotin; apply in_or_app; now left).
    rewrite IH; auto.
    + now rewrite <- app_assoc.
    + rewrite map_app. simpl. now rewrite <- app_assoc.
Qed.

Lemma verdict_terminal (rt : runtime) (e : WorkflowElement) :
  fst (verdict rt e) = ready \/ fst (verdict rt e) = error.
Proof.
  unfold verdict.
  destruct (element_result rt e) as [ex | [v st]] eqn:E; simpl; auto.
  eapply element_result_status; eauto.
Qed.

Lemma find_by_id (rt : runtime) (els : list WorkflowElement) (e : WorkflowElement) :
  string_ids els ->
  NoDup (map id els) ->
  In e els ->
  find (fun x => py_eqb (id x) (id e)) (map (settle rt) els) = Some (settle rt e).
Proof.
  induction els as [| e0 rest IH]; intros Hs Hn Hin; [contradiction |].
  apply string_ids_inv in Hs. destruct Hs as [[a0 Ha0] Hs].
  simpl in Hn. inversion Hn as [| ? ? Hnot Hn']; subst.
  simpl. destruct Hin as [-> | Hin].
  - destruct (id e) eqn:Ei; try discriminate.
    inversion Ha0; subst. simpl. now rewrite String.eqb_refl.
  - assert (Hne : id e0 <> id e).
    { intros Heq. apply Hnot. rewrite Heq. now apply in_map. }
    assert (He : exists a, id e = PStr a).
    { unfold string_ids in Hs. rewrite forallb_forall in Hs.
      specialize (Hs e Hin). destruct (id e); try discriminate. eauto. }
    destruct He as [a Ha]. rewrite Ha0, Ha in *. simpl.
    destruct (String.eqb_spec a0 a) as [-> | _]; [congruence |].
    auto.
Qed.

Lemma show_results_entries
  (rt : runtime) (title : string -> string) (shown sub : list WorkflowElement) :
  (forall e, In e sub ->
             find (fun x => py_eqb (id x) (id e)) shown = Some (settle rt e)) ->
  Forall (fun e => is_str (type e) = true) sub ->
  exists lines,
    show_results rt title shown (map (fun e => (id e, snd (verdict rt e))) sub)
    = (lines, None) /\
    List.length lines = List.length sub /\
    map snd lines = map (fun e => py_str rt (snd (verdict rt e))) sub /\
    Forall (fun l => fst (fst l) <> Waiting) lines.
Proof.
  induction sub as [| e rest IH]; intros Hfind Ht; simpl.
  - exists []. repeat split; constructor.
  - inversion Ht as [| ? ? He Hrest]; subst.
    destruct IH as (lines & Hl & Hlen & Htexts & Hmarks); auto.
    { intros x Hx. apply Hfind. now right. }
    rewrite (Hfind e) by now left.
    simpl. destruct (type e) as [| | | | t | |] eqn:Et; try discriminate.
    simpl. rewrite Hl.
    eexists. split; [reflexivity |]. simpl.
    split; [now rewrite Hlen |]. split; [now rewrite Htexts |].
    constructor; auto. simpl. unfold status_emoji.
    destruct (verdict_terminal rt e) as [-> | ->]; simpl; discriminate.
Qed.

(** X30.  After a run of a document with pairwise-distinct string ids and
    string types, the "Execution Results" report has one line per element,
    in the order of the document; each line carries the result stored for
    the element, and a check mark or a cross, never the hourglass. *)
Theorem report_lists_every_element
  (rt : runtime) (title : string -> string) (s : session_state) :
  workflow_elements s <> [] ->
  string_ids (workflow_elements s) ->
  unique_ids (workflow_elements s) ->
  Forall (fun e => is_str (type e) = true) (workflow_elements s) ->
  exists res lines,
    snd (execute_workflow rt s) = Completed res /\
    show_results rt title (workflow_elements (fst (execute_workflow rt s))) res
    = (lines, None) /\
    List.length lines = List.length (workflow_elements s) /\
    map snd lines = map (fun kv => py_str rt (snd kv)) res /\
    Forall (fun l => fst (fst l) <> Waiting) lines.
Proof.
  intros Hne Hs Hu Ht.
  rewrite (execute_workflow_string_ids rt s Hne Hs Ht). simpl.
  rewrite record_all by (simpl; assumption). simpl.
  destruct (show_results_entries rt title
              (map (settle rt) (workflow_elements s)) (workflow_elements s))
    as (lines & Hl & Hlen & Htexts & Hmarks); auto.
  { intros e He. now apply find_by_id. }
  exists (map (fun e => (id e, snd (verdict rt e))) (workflow_elements s)), lines.
  repeat split; auto.
  rewrite Htexts, map_map. reflexivity.
Qed.

Lemma report_lists_every_element_witness :
  exists res lines,
    snd (execute_workflow demo_runtime
           (session_of [element_with "p" "pdf_upload" [] pending;
                        element_with "k" "chart" [] pending])) = Completed res /\
    show_results demo_runtime (fun t => t)
      (workflow_elements
         (fst (execute_workflow demo_runtime
                 (session_of [element_with "p" "pdf_upload" [] pending;
                              element_with "k" "chart" [] pending])))) res
    = (lines, None) /\
    List.length lines = 2%nat /\
    map snd lines = map (fun kv => py_str demo_runtime (snd kv)) res /\
    Forall (fun l => fst (fst l) <> Waiting) lines.
Proof.
  apply (report_lists_every_element demo_runtime (fun t => t)
           (session_of [element_with "p" "pdf_upload" [] pending;
                        element_with "k" "chart" [] pending])).
  - discriminate.
  - reflexivity.
  - unfold unique_ids. simpl. repeat constructor; simpl; intuition discriminate.
  - repeat constructor.
Defined.

(** The report of the witness, spelled out. *)
Example report_of_two_elements :
  show_results demo_runtime (fun t => t)
    [element_with "p" "pdf_upload" [] error; element_with "k" "chart" [] ready]
    [(PStr "p", PStr "No PDF uploaded"); (PStr "k", PStr "chart executed successfully")]
  = ([(Failed, "PDF Upload", "No PDF uploaded");
      (Done, "Chart", "chart executed successfully")], None).
Proof. reflexivity. Qed.
